(** * Snapcast: the Sonos low-latency-audio player and the stream session

    A shallow embedding of [client/player/sonoslla_player.cpp] (the pacing
    engine: [pcm_list], [start], [stop], [init], [uninit], [worker]) and of
    the staleness bound declared in [server/stream_session_1.hpp], followed
    by the properties the specification states about them.

    Conventions.
    - [size_t], [uint32_t] and [int] quantities that count frames, bytes or
      milliseconds are integers of [Z]; the 32-bit device samples are
      computed with their wrap-around written out ([to_int32]).
    - [std::vector<char> buffer_] is a [list byte]; the [int32_t] array
      [bd.samples] is a block of cells with its size in bytes.
    - Calls that leave the translation unit (the device library, the
      stream, the [Player] base class) are answered by an environment and
      recorded as [event]s, in program order.
    - An access outside [buffer_] or outside the block [bd.samples] has no
      defined behaviour in C++; the model stops with [Undefined] there.
      Neither has the conversion to [int] of a quotient that does not fit
      one: the time budget of line 179 is an [option], and the worker is
      [Crashed] when it is [None]. *)

From Stdlib Require Import ZArith List Bool String QArith Lia Btauto.
From stdpp Require Import base option list gmap.

Local Open Scope Z_scope.

(** ** Sample formats *)

(** [SampleFormat] as the player reads it through [stream_->getFormat()]:
    [rate()], [bits()], [channels()]. *)
Record SampleFormat := {
  rate : Z;
  bits : Z;
  channels : Z
}.

(** Modelled from the spec: [SampleFormat::frameSize] is declared in
    common/sample_format.hpp, which is not among the sources. The spec's
    data model gives "frame size = channels x (bits/8) bytes". *)
Definition frameSize (f : SampleFormat) : Z := channels f * (bits f / 8).

(** Modelled from the spec: [SampleFormat::msRate], not among the sources
    either: "frames-per-millisecond = sampleRate/1000", kept exact as a
    rational number. *)
Definition msRate (f : SampleFormat) : Q := (inject_Z (rate f) / inject_Z 1000)%Q.

(** Conversion of an arithmetic quotient to [int]: the fraction is dropped. *)
Definition Qtrunc (q : Q) : Z := Z.quot (Qnum q) (Zpos (Qden q)).

(** The values an [int] holds. *)
Definition INT_MIN : Z := - 2 ^ 31.
Definition INT_MAX : Z := 2 ^ 31 - 1.

(** Line 179: [int time = bd.num_samples / stream_->getFormat().msRate();]
    The quotient is stored into an [int]: its fraction is dropped, and the
    conversion has no defined result when the whole part does not fit an
    [int]. With a rate of 0 the divisor is zero and there is no quotient
    to convert. *)
Definition time_budget (f : SampleFormat) (num_samples : Z) : option Z :=
  if decide (rate f = 0) then None
  else
    let time := Qtrunc (inject_Z num_samples / msRate f)%Q in
    if decide (INT_MIN <= time <= INT_MAX) then Some time else None.

(** ** Bytes and 32-bit words *)

Abbreviation byte := Byte.byte.

Definition byte_val (b : byte) : Z := Z.of_N (Byte.to_N b).

(** The byte holding [z mod 256]. *)
Definition byte_of_Z (z : Z) : byte :=
  match Byte.of_N (Z.to_N (z mod 256)) with
  | Some b => b
  | None => Byte.x00
  end.

(** Byte order of the machine the client runs on. *)
Inductive byte_order := LittleEndian | BigEndian.

(** The unsigned value of four bytes at increasing addresses, read as one
    32-bit word by a machine of the given byte order. *)
Definition load_u32 (host : byte_order) (m : list byte) : Z :=
  match m with
  | [b0; b1; b2; b3] =>
      match host with
      | LittleEndian =>
          byte_val b0 + byte_val b1 * 2 ^ 8 + byte_val b2 * 2 ^ 16 + byte_val b3 * 2 ^ 24
      | BigEndian =>
          byte_val b3 + byte_val b2 * 2 ^ 8 + byte_val b1 * 2 ^ 16 + byte_val b0 * 2 ^ 24
      end
  | _ => 0
  end.

(** [__swab32] of <asm/byteorder.h>:
    [((x & 0x000000ff) << 24) | ((x & 0x0000ff00) << 8) |
     ((x & 0x00ff0000) >> 8) | ((x & 0xff000000) >> 24)]. *)
Definition swab32 (x : Z) : Z :=
  Z.lor (Z.lor (Z.shiftl (Z.land x 255) 24)
               (Z.shiftl (Z.land x 65280) 8))
        (Z.lor (Z.shiftr (Z.land x 16711680) 8)
               (Z.shiftr (Z.land x 4278190080) 24)).

(** [__le32_to_cpu]: the identity on a little-endian machine, a byte swap
    on a big-endian one. *)
Definition le32_to_cpu (host : byte_order) (x : Z) : Z :=
  match host with
  | LittleEndian => x
  | BigEndian => swab32 x
  end.

(** Storing an unsigned 32-bit value into an [int32_t]. *)
Definition to_int32 (u : Z) : Z := (u + 2 ^ 31) mod 2 ^ 32 - 2 ^ 31.

(** ** The sample conversion of [worker] (lines 219-228) *)

(** [len] bytes of [buf] from offset [off]; nothing when the range leaves
    the vector. *)
Definition read_bytes (buf : list byte) (off len : nat) : option (list byte) :=
  if decide (off + len <= length buf)%nat
  then Some (take len (drop off buf))
  else None.

(** [int32_t temp_sample = 0; memcpy(&temp_sample, &p[i], bytes_per_sample);]
    with [int16_t* p = (int16_t* )&buffer_[0]]: the source is [buffer_] from
    byte [2 * i] on, the destination the four bytes of [temp_sample];
    copying more than four bytes overruns it. *)
Definition temp_sample (buf : list byte) (bytes_per_sample i : nat) : option (list byte) :=
  if decide (bytes_per_sample <= 4)%nat
  then src ← read_bytes buf (2 * i) bytes_per_sample;
       Some (src ++ replicate (4 - bytes_per_sample) Byte.x00)
  else None.

(** The value assigned to [bd.samples[i]]: [__le32_to_cpu(temp_sample)]. *)
Definition swizzle_sample (host : byte_order) (buf : list byte)
    (bytes_per_sample i : nat) : option Z :=
  m ← temp_sample buf bytes_per_sample i;
  Some (to_int32 (le32_to_cpu host (load_u32 host m))).

(** The block [bd.samples] points to: its size in bytes, as passed to
    [malloc], and its [int32_t] cells by index. A cell never written has
    no entry. *)
Record sample_block := {
  blk_bytes : Z;
  blk_cells : gmap nat Z
}.

(** [malloc(bytes)] when it succeeds. *)
Definition fresh_block (bytes : Z) : sample_block :=
  {| blk_bytes := bytes; blk_cells := ∅ |}.

(** [bd.samples[i] = v]: defined when the four bytes of cell [i] lie inside
    the block. *)
Definition store_sample (blk : sample_block) (i : nat) (v : Z) : option sample_block :=
  if decide (4 * (Z.of_nat i + 1) <= blk_bytes blk)
  then Some {| blk_bytes := blk_bytes blk; blk_cells := <[i := v]> (blk_cells blk) |}
  else None.

(** [for (i = 0; i < numFrames * num_channels; i++)], from index [i] with
    [n] rounds left. *)
Fixpoint swizzle_from (host : byte_order) (buf : list byte) (bytes_per_sample : nat)
    (i n : nat) (blk : sample_block) : option sample_block :=
  match n with
  | O => Some blk
  | S n' =>
      v ← swizzle_sample host buf bytes_per_sample i;
      blk' ← store_sample blk i v;
      swizzle_from host buf bytes_per_sample (S i) n' blk'
  end.

Definition swizzle (host : byte_order) (buf : list byte) (bytes_per_sample n : nat)
    (blk : sample_block) : option sample_block :=
  swizzle_from host buf bytes_per_sample 0 n blk.

(** 16-bit PCM as the stream carries it: two's complement, low byte first. *)
Definition encode16le (xs : list Z) : list byte :=
  flat_map (fun x => [byte_of_Z x; byte_of_Z (x / 256)]) xs.

(** The first [n] cells of the block, as the device reads them after
    [write_fun]. *)
Definition samples_written (n : nat) (blk : sample_block) : list (option Z) :=
  (fun i => blk_cells blk !! i) <$> seq 0 n.

(** Every store of a loop of [count] rounds lies inside the block. *)
Definition writes_in_bounds (blk : sample_block) (count : nat) : Prop :=
  forall (i : nat) (v : Z), (i < count)%nat -> is_Some (store_sample blk i v).

(** ** The player and what surrounds it *)

(** Constants and collaborators the translation unit takes from elsewhere:
    the macros of sonoslla/common.h, the build flag that selects the device
    library, the byte order of the target, the error code a [SnapException]
    carries when it is built from a message alone, and [Player::adjustVolume]
    (bytes of [buffer_], number of frames, the bytes after scaling). *)
Record Platform := {
  SAMPLES_PER_BUFFER : Z;
  MAX_NUM_CHANNELS : Z;
  SAMPLE_SIZE : Z;
  SONOS_ARCH_ATTR_USES_LLA : bool;
  host_order : byte_order;
  snap_exception_code : Z;
  adjustVolume : list byte -> Z -> list byte
}.

(** [EBUSY] of <errno.h> on Linux. *)
Definition EBUSY : Z := 16.

(** What the environment answers to the calls [init] makes. The device
    library receives [&out_instance] (and [platform_init] both instances),
    so each answer carries the token it leaves in the instance; a null
    token is [None]. *)
Record InitEnv := {
  open_output_ret : Z;
  open_output_token : option Z;
  malloc_succeeds : bool;
  platform_init_ret : Z;
  platform_init_in_token : option Z;
  platform_init_out_token : option Z
}.

(** What the stream answers to [getPlayerChunkOrSilence]: the samples that
    are due (byte [k] of the chunk is [pcm k]), or nothing in time. *)
Inductive queue_response :=
| ChunkReady (pcm : nat -> byte)
| NotReady.

(** Calls that leave the translation unit, in program order. *)
Inductive event :=
| OpenOutput (num_samples bytes_per_sample num_channels : Z)
| Malloc (bytes : Z)
| PlatformInit
| PlatformExit
| CloseFun (token : Z)
| Free
| PlayerStart
| PlayerStop
| WaitForChunk (ms : Z)
| LogWaiting
| GetPlayerChunkOrSilence (ms frames : Z)
| LogSilence
| AdjustVolume (frames : Z)
| WriteFun (token : option Z) (samples : gmap nat Z) (num_samples : Z).

(** The members of [SonosLLAPlayer] (and [active_] of its base class).
    [in_instance] and [out_instance] are the tokens of the two device
    instances, [bd_samples] and [bd_num_samples] the fields of [bd]. *)
Record SonosLLAPlayer := {
  active_ : bool;
  buffer_ : list byte;
  m_num_samples : Z;
  in_instance : option Z;
  out_instance : option Z;
  bd_samples : option sample_block;
  bd_num_samples : Z
}.

(** The constructor (lines 62-72). *)
Definition constructed : SonosLLAPlayer :=
  {| active_ := false; buffer_ := []; m_num_samples := 0;
     in_instance := None; out_instance := None;
     bd_samples := None; bd_num_samples := 0 |}.

(** *** Member functions as state transformers *)

(** How a member function ends: it returns, it throws a [SnapException]
    with a code, or it leaves defined behaviour. *)
Inductive outcome (A : Type) :=
| Returns (a : A)
| Throws (code : Z)
| Undefined.
Arguments Returns {A} a.
Arguments Throws {A} code.
Arguments Undefined {A}.

(** A member function: from the object before the call to how the call
    ends, the object after it and the calls it made. *)
Definition M (A : Type) : Type :=
  SonosLLAPlayer -> outcome A * SonosLLAPlayer * list event.

Definition ret {A} (a : A) : M A := fun st => (Returns a, st, []).

Definition bind {A B} (m : M A) (k : A -> M B) : M B := fun st =>
  match m st with
  | (Returns a, st1, tr1) =>
      match k a st1 with
      | (o, st2, tr2) => (o, st2, tr1 ++ tr2)
      end
  | (Throws c, st1, tr1) => (Throws c, st1, tr1)
  | (Undefined, st1, tr1) => (Undefined, st1, tr1)
  end.

Definition throw {A} (code : Z) : M A := fun st => (Throws code, st, []).
Definition undefined {A} : M A := fun st => (Undefined, st, []).
Definition emit (e : event) : M unit := fun st => (Returns tt, st, [e]).
Definition get : M SonosLLAPlayer := fun st => (Returns st, st, []).
Definition modify (f : SonosLLAPlayer -> SonosLLAPlayer) : M unit :=
  fun st => (Returns tt, f st, []).

(** [try { m } catch (const SnapException& e) { h e.code() }] *)
Definition try_catch {A} (m : M A) (h : Z -> M A) : M A := fun st =>
  match m st with
  | (Throws c, st1, tr1) =>
      match h c st1 with
      | (o, st2, tr2) => (o, st2, tr1 ++ tr2)
      end
  | r => r
  end.

Declare Scope player_scope.
Delimit Scope player_scope with player.
Notation "x <- m ;; k" := (bind m (fun x => k))
  (at level 100, m at next level, right associativity) : player_scope.
Notation "m ;; k" := (bind m (fun _ => k))
  (at level 100, right associativity) : player_scope.
Local Open Scope player_scope.

Definition set_active (b : bool) (st : SonosLLAPlayer) : SonosLLAPlayer :=
  {| active_ := b; buffer_ := buffer_ st; m_num_samples := m_num_samples st;
     in_instance := in_instance st; out_instance := out_instance st;
     bd_samples := bd_samples st; bd_num_samples := bd_num_samples st |}.

Definition set_buffer (buf : list byte) (st : SonosLLAPlayer) : SonosLLAPlayer :=
  {| active_ := active_ st; buffer_ := buf; m_num_samples := m_num_samples st;
     in_instance := in_instance st; out_instance := out_instance st;
     bd_samples := bd_samples st; bd_num_samples := bd_num_samples st |}.

Definition set_num_samples (n : Z) (st : SonosLLAPlayer) : SonosLLAPlayer :=
  {| active_ := active_ st; buffer_ := buffer_ st; m_num_samples := n;
     in_instance := in_instance st; out_instance := out_instance st;
     bd_samples := bd_samples st; bd_num_samples := n |}.

Definition set_bd_num_samples (n : Z) (st : SonosLLAPlayer) : SonosLLAPlayer :=
  {| active_ := active_ st; buffer_ := buffer_ st; m_num_samples := m_num_samples st;
     in_instance := in_instance st; out_instance := out_instance st;
     bd_samples := bd_samples st; bd_num_samples := n |}.

Definition set_in_instance (t : option Z) (st : SonosLLAPlayer) : SonosLLAPlayer :=
  {| active_ := active_ st; buffer_ := buffer_ st; m_num_samples := m_num_samples st;
     in_instance := t; out_instance := out_instance st;
     bd_samples := bd_samples st; bd_num_samples := bd_num_samples st |}.

Definition set_out_instance (t : option Z) (st : SonosLLAPlayer) : SonosLLAPlayer :=
  {| active_ := active_ st; buffer_ := buffer_ st; m_num_samples := m_num_samples st;
     in_instance := in_instance st; out_instance := t;
     bd_samples := bd_samples st; bd_num_samples := bd_num_samples st |}.

Definition set_samples (b : option sample_block) (st : SonosLLAPlayer) : SonosLLAPlayer :=
  {| active_ := active_ st; buffer_ := buffer_ st; m_num_samples := m_num_samples st;
     in_instance := in_instance st; out_instance := out_instance st;
     bd_samples := b; bd_num_samples := bd_num_samples st |}.

(** Modelled from the spec: [Player::start] of the base class, defined in
    player.cpp, which is not among the sources. The spec has it leave the
    engine in the Running state, with the pacing loop started. *)
Definition Player_start : M unit :=
  emit PlayerStart;; modify (set_active true).

(** Modelled from the spec: [Player::stop] of the base class: it "signals
    the loop to exit, joins it". *)
Definition Player_stop : M unit :=
  emit PlayerStop;; modify (set_active false).

Section Player.

Variable P : Platform.

(** The format [stream_->getFormat()] returns; the spec has it immutable
    once a stream begins. *)
Variable format : SampleFormat.

(** [SonosLLAPlayer::init] (lines 108-149). [OpenOutput] stands for
    [llaudio_open_output] or [alsaaudio_open_output], whichever the build
    selects: both receive [&out_instance], the sample count, the sample
    width and the channel count. The [flags] passed to [platform_init]
    are constants. Each [throw SnapException("...")] carries the code of
    the platform. *)
Definition init (env : InitEnv) : M unit :=
  let num_channels := channels format in
  let bytes_per_sample := bits format / 8 in
  let n := 50 * SAMPLES_PER_BUFFER P in
  modify (set_num_samples n);;
  emit (OpenOutput n bytes_per_sample num_channels);;
  modify (set_out_instance (open_output_token env));;
  (if open_output_ret env <? 0 then throw (snap_exception_code P) else ret tt);;
  let bytes := n * MAX_NUM_CHANNELS P * SAMPLE_SIZE P in
  emit (Malloc bytes);;
  modify (set_samples (if malloc_succeeds env then Some (fresh_block bytes) else None));;
  (if malloc_succeeds env then ret tt else throw (snap_exception_code P));;
  emit PlatformInit;;
  modify (set_in_instance (platform_init_in_token env));;
  modify (set_out_instance (platform_init_out_token env));;
  (if platform_init_ret env <? 0 then throw (snap_exception_code P) else ret tt).

(** [SonosLLAPlayer::uninit] (lines 151-168). [close_fun] receives the
    token by value. *)
Definition uninit : M unit :=
  emit PlatformExit;;
  st <- get;;
  match in_instance st with
  | Some t => emit (CloseFun t)
  | None => ret tt
  end;;
  match out_instance st with
  | Some t => emit (CloseFun t)
  | None => ret tt
  end;;
  match bd_samples st with
  | Some _ => emit Free;; modify (set_samples None)
  | None => ret tt
  end.

(** [SonosLLAPlayer::start] (lines 80-97). *)
Definition start (env : InitEnv) : M unit :=
  try_catch (init env)
    (fun code => if code =? - EBUSY then ret tt else throw code);;
  Player_start.

(** [SonosLLAPlayer::stop] (lines 99-106). *)
Definition stop : M unit :=
  Player_stop;;
  uninit.

(** [SonosLLAPlayer::needsThread] (lines 170-173). *)
Definition needsThread : bool := true.

(** [buffer_.resize(needed)] when [buffer_.size() < needed]: the new bytes
    are zero. *)
Definition resize_up (buf : list byte) (needed : nat) : list byte :=
  if decide (length buf < needed)%nat
  then buf ++ replicate (needed - length buf) Byte.x00
  else buf.

(** Modelled from the spec: [Stream::getPlayerChunkOrSilence], defined in
    stream.cpp, which is not among the sources. The spec's chunk queue
    interface is [getChunkOrSilence(outBuffer, timeout, frameCount) -> bool]
    with "false => silence was substituted", silence being all-zero
    samples. The result is the flag and the [needed] bytes written to the
    front of the output buffer. *)
Definition getPlayerChunkOrSilence (q : queue_response) (needed : nat) : bool * list byte :=
  match q with
  | ChunkReady pcm => (true, map pcm (seq 0 needed))
  | NotReady => (false, replicate needed Byte.x00)
  end.

(** Lines 188-233 of [worker]: one buffer retrieved, scaled, converted and
    written. [time] is the budget computed on line 179, [q] the stream's
    answer, [write_ret] what [write_fun] returns. *)
Definition iteration_body (time : Z) (q : queue_response) (write_ret : Z) : M unit :=
  st <- get;;
  let numFrames := bd_num_samples st in
  let needed := Z.to_nat (numFrames * frameSize format) in
  let buf := resize_up (buffer_ st) needed in
  emit (GetPlayerChunkOrSilence time numFrames);;
  let r := getPlayerChunkOrSilence q needed in
  modify (set_buffer (snd r ++ drop needed buf));;
  (if fst r
   then emit (AdjustVolume numFrames);;
        modify (fun s => set_buffer (adjustVolume P (buffer_ s) numFrames) s)
   else emit LogSilence);;
  let num_channels := channels format in
  let bytes_per_sample := bits format / 8 in
  let count := Z.to_nat (numFrames * num_channels) in
  st <- get;;
  match bd_samples st, count with
  | None, O =>
      modify (set_bd_num_samples numFrames);;
      emit (WriteFun (out_instance st) ∅ numFrames)
  | None, S _ => undefined
  | Some blk, _ =>
      match swizzle (host_order P) (buffer_ st) (Z.to_nat bytes_per_sample) count blk with
      | None => undefined
      | Some blk' =>
          modify (set_samples (Some blk'));;
          modify (set_bd_num_samples numFrames);;
          emit (WriteFun (out_instance st) (blk_cells blk') numFrames)
      end
  end.

(** *** The loops of [worker] (lines 175-235) *)

(** [active_] is cleared by [stop] on another thread and the stream and
    the device answer from outside: the worker sees them as sequences,
    indexed by how many times it has asked. *)
Record Oracle := {
  active_at : nat -> bool;
  wait_at : nat -> bool;
  queue_at : nat -> queue_response;
  write_at : nat -> Z
}.

(** Where the worker stands: about to evaluate the outer condition
    [while (active_)], about to evaluate the inner condition
    [while (active_ && !waitForChunk(100ms))] with [time] already computed,
    returned from [worker], or outside defined behaviour. *)
Inductive pc :=
| AtOuter
| AtInner (time : Z)
| Exited
| Crashed.

Record wstate := {
  w_pc : pc;
  w_player : SonosLLAPlayer;
  w_reads : nat;
  w_polls : nat;
  w_rounds : nat;
  w_trace : list event
}.

(** The rest of the iteration once the inner loop is left. *)
Definition run_body (o : Oracle) (time : Z) (s : wstate) (reads polls : nat)
    (tr : list event) : wstate :=
  match iteration_body time (queue_at o (w_rounds s)) (write_at o (w_rounds s)) (w_player s) with
  | (Returns _, st', tr') =>
      {| w_pc := AtOuter; w_player := st'; w_reads := reads; w_polls := polls;
         w_rounds := S (w_rounds s); w_trace := w_trace s ++ tr ++ tr' |}
  | (_, st', tr') =>
      {| w_pc := Crashed; w_player := st'; w_reads := reads; w_polls := polls;
         w_rounds := S (w_rounds s); w_trace := w_trace s ++ tr ++ tr' |}
  end.

(** One evaluation of a loop condition and what follows it up to the next
    one. *)
Definition step (o : Oracle) (s : wstate) : wstate :=
  match w_pc s with
  | AtOuter =>
      if active_at o (w_reads s)
      then {| w_pc := match time_budget format (bd_num_samples (w_player s)) with
                      | Some time => AtInner time
                      | None => Crashed
                      end;
              w_player := w_player s; w_reads := S (w_reads s); w_polls := w_polls s;
              w_rounds := w_rounds s; w_trace := w_trace s |}
      else {| w_pc := Exited;
              w_player := w_player s; w_reads := S (w_reads s); w_polls := w_polls s;
              w_rounds := w_rounds s; w_trace := w_trace s |}
  | AtInner time =>
      if active_at o (w_reads s)
      then if wait_at o (w_polls s)
           then run_body o time s (S (w_reads s)) (S (w_polls s)) [WaitForChunk 100]
           else {| w_pc := AtInner time;
                   w_player := w_player s; w_reads := S (w_reads s);
                   w_polls := S (w_polls s); w_rounds := w_rounds s;
                   w_trace := w_trace s ++ [WaitForChunk 100; LogWaiting] |}
      else run_body o time s (S (w_reads s)) (w_polls s) []
  | Exited => s
  | Crashed => s
  end.

(** [worker], for [fuel] evaluations of a loop condition. *)
Fixpoint worker (o : Oracle) (fuel : nat) (s : wstate) : wstate :=
  match fuel with
  | O => s
  | S fuel' => worker o fuel' (step o s)
  end.

(** A call that, if it is the retrieval, carries timeout [t] and frame
    count [n]. *)
Definition retrieval_with (t n : Z) (e : event) : Prop :=
  match e with
  | GetPlayerChunkOrSilence ms frames => ms = t /\ frames = n
  | _ => True
  end.

(** A call that, if it is the wait for a chunk, is bounded by [t]
    milliseconds. *)
Definition wait_bounded_by (t : Z) (e : event) : Prop :=
  match e with
  | WaitForChunk ms => ms = t
  | _ => True
  end.

(** The worker thread as [Player::start] launches it. *)
Definition worker_entry (st : SonosLLAPlayer) : wstate :=
  {| w_pc := AtOuter; w_player := st; w_reads := 0; w_polls := 0;
     w_rounds := 0; w_trace := [] |}.

End Player.

(** ** Device enumeration *)

(** [PcmDevice] of pcm_device.hpp: index, name, description. *)
Record PcmDevice := {
  idx : Z;
  name : string;
  description : string
}.

Definition kAlsaDescription : string := "Sonos Alsa output".
Definition kLLADescription : string := "Sonos LLA output".

(** [SonosLLAPlayer::pcm_list] (lines 49-60). *)
Definition pcm_list (P : Platform) (parameter : string) : list PcmDevice :=
  if SONOS_ARCH_ATTR_USES_LLA P
  then [ {| idx := 0; name := "lla"; description := kLLADescription |} ]
  else [ {| idx := 0; name := "alsa"; description := kAlsaDescription |} ].

(** ** The stream session's staleness bound *)

(** [StreamSession] (stream_session_1.hpp): the member [bufferMs_] and what
    the session has put on the wire; a chunk is named by its timestamp in
    stream-clock milliseconds. *)
Record StreamSession := {
  bufferMs_ : Z;
  transmitted : list Z
}.

(** [StreamSession::setBufferMs] (line 73): "Max playout latency. No need
    to send PCM data that is older than bufferMs". *)
Definition setBufferMs (bufferMs : Z) (s : StreamSession) : StreamSession :=
  {| bufferMs_ := bufferMs; transmitted := transmitted s |}.

(** How the evaluation of an outgoing chunk ends for the caller. *)
Inductive send_result := Sent | Dropped | SendFailed.

(** How far a chunk's timestamp lags the stream clock. *)
Definition lag (clock timestamp : Z) : Z := clock - timestamp.

(** Modelled from the spec: the send path of [StreamSession], defined in
    stream_session.cpp, which is not among the sources. "Before
    transmitting an audio-chunk message, the session computes how far the
    chunk's timestamp lags the current stream clock; if that lag exceeds
    the bound, the chunk is dropped rather than sent"; the drop "must not
    be surfaced as a failure to the caller". *)
Definition send_chunk (clock timestamp : Z) (s : StreamSession)
    : StreamSession * send_result :=
  if bufferMs_ s <? lag clock timestamp
  then (s, Dropped)
  else ({| bufferMs_ := bufferMs_ s; transmitted := transmitted s ++ [timestamp] |}, Sent).

(** ** Concrete configurations for the examples *)

(** A little-endian ALSA build with 4 samples per buffer, up to 8
    channels of 4-byte samples, and exceptions carrying [code]. *)
Definition alsa_platform (code : Z) : Platform :=
  {| SAMPLES_PER_BUFFER := 4; MAX_NUM_CHANNELS := 8; SAMPLE_SIZE := 4;
     SONOS_ARCH_ATTR_USES_LLA := false; host_order := LittleEndian;
     snap_exception_code := code;
     adjustVolume := fun buf _ => buf |}.

(** 48 kHz, 16 bit, stereo. *)
Definition cd_stereo : SampleFormat := {| rate := 48000; bits := 16; channels := 2 |}.

(** Every call of [init] succeeds; the device library hands out token 7
    for the output and [platform_init] token 5 for the input. *)
Definition env_ok : InitEnv :=
  {| open_output_ret := 0; open_output_token := Some 7; malloc_succeeds := true;
     platform_init_ret := 0; platform_init_in_token := Some 5;
     platform_init_out_token := Some 7 |}.

(** The output device cannot be opened. *)
Definition env_open_fails : InitEnv :=
  {| open_output_ret := -1; open_output_token := None; malloc_succeeds := true;
     platform_init_ret := 0; platform_init_in_token := None;
     platform_init_out_token := None |}.

(** A build whose [SAMPLE_SIZE] is 2, with one sample per buffer. *)
Definition two_byte_platform : Platform :=
  {| SAMPLES_PER_BUFFER := 1; MAX_NUM_CHANNELS := 8; SAMPLE_SIZE := 2;
     SONOS_ARCH_ATTR_USES_LLA := false; host_order := LittleEndian;
     snap_exception_code := 0;
     adjustVolume := fun buf _ => buf |}.



(** 8 kHz, 8 bit, mono. *)
Definition phone_mono : SampleFormat := {| rate := 8000; bits := 8; channels := 1 |}.

(** The player after a start in which every call of [init] succeeds. *)
Definition started_player : SonosLLAPlayer :=
  (start (alsa_platform 0) cd_stereo env_ok constructed).1.2.

(** An environment in which [stop] clears [active_] after [k0] reads, the
    first wait for a chunk times out and the later ones succeed, the
    stream never has a chunk in time and every device write fails. *)
Definition stop_after (k0 : nat) : Oracle :=
  {| active_at := fun k => Nat.ltb k k0;
     wait_at := fun k => Nat.ltb 0 k;
     queue_at := fun _ => NotReady;
     write_at := fun _ => -1 |}.

(** The kind of each call of a trace, without its arguments. *)
Definition call_kind (e : event) : string :=
  match e with
  | OpenOutput _ _ _ => "open_output"
  | Malloc _ => "malloc"
  | PlatformInit => "platform_init"
  | PlatformExit => "platform_exit"
  | CloseFun _ => "close_fun"
  | Free => "free"
  | PlayerStart => "Player::start"
  | PlayerStop => "Player::stop"
  | WaitForChunk _ => "waitForChunk"
  | LogWaiting => "log waiting"
  | GetPlayerChunkOrSilence _ _ => "getPlayerChunkOrSilence"
  | LogSilence => "log silence"
  | AdjustVolume _ => "adjustVolume"
  | WriteFun _ _ _ => "write_fun"
  end.

(** Membership of a call in a short, explicit trace. *)
Ltac trace_membership :=
  rewrite ?elem_of_app, ?elem_of_cons, ?elem_of_nil;
  try solve [ intuition (try discriminate; try congruence; eauto) ].

(** ** The rest of the player's life cycle *)

(** [SonosLLAPlayer::~SonosLLAPlayer] (lines 74-78): it calls [stop]. *)
Definition destructor : M unit := stop.

(** [stop] called [n] times in a row. *)
Fixpoint stop_times (n : nat) : M unit :=
  match n with
  | O => ret tt
  | S n' => stop;; stop_times n'
  end.

(** Kinds of calls, for counting them in a trace. *)
Definition is_free (e : event) : bool :=
  match e with Free => true | _ => false end.

Definition is_close (e : event) : bool :=
  match e with CloseFun _ => true | _ => false end.

Definition is_malloc (e : event) : bool :=
  match e with Malloc _ => true | _ => false end.

Definition is_retrieval (e : event) : bool :=
  match e with GetPlayerChunkOrSilence _ _ => true | _ => false end.

Definition is_write (e : event) : bool :=
  match e with WriteFun _ _ _ => true | _ => false end.

(** The calls [worker] makes: to the stream, to [adjustVolume], to
    [write_fun], and to the log. *)
Definition is_worker_call (e : event) : bool :=
  match e with
  | WaitForChunk _ | LogWaiting | GetPlayerChunkOrSilence _ _ | LogSilence
  | AdjustVolume _ | WriteFun _ _ _ => true
  | _ => false
  end.

(** 1 for a non-null pointer or token, 0 for a null one. *)
Definition held {A : Type} (x : option A) : nat :=
  match x with Some _ => 1 | None => 0 end.


(** How often a kind of call occurs in a trace. *)
Definition count_calls (kind : event -> bool) (tr : list event) : nat :=
  length (filter (fun e => kind e = true) tr).

(** [Player::adjustVolume] scales the samples where they lie: it gets a
    pointer into [buffer_] and cannot change the size of the vector. *)
Definition scales_in_place (P : Platform) : Prop :=
  forall (buf : list byte) (frames : Z),
    length (adjustVolume P buf frames) = length buf.

(** The unsigned number whose little-endian bytes are [src]. *)
Fixpoint le_value (src : list byte) : Z :=
  match src with
  | [] => 0
  | b :: rest => byte_val b + 256 * le_value rest
  end.

(** 32-bit PCM as the stream carries it: two's complement, low byte first. *)
Definition encode32le (xs : list Z) : list byte :=
  flat_map (fun x => [byte_of_Z x; byte_of_Z (x / 2 ^ 8);
                      byte_of_Z (x / 2 ^ 16); byte_of_Z (x / 2 ^ 24)]) xs.

(** ** Track metadata: the cover art *)

(** [Metadata::ArtData] (metadata.hpp, lines 34-48). *)
Record ArtData := {
  data : string;
  extension : string
}.

(** [ArtData::operator==] (lines 39-42):
    [(other.data == data) && (other.extension == extension)]. *)
Definition ArtData_eq (self other : ArtData) : bool :=
  String.eqb (data other) (data self) && String.eqb (extension other) (extension self).

(** [ArtData::operator!=] (lines 44-47): [!(other == *this)], the
    comparison being made from [other]'s side. *)
Definition ArtData_ne (self other : ArtData) : bool :=
  negb (ArtData_eq other self).

(** * Properties *)

(** ** Bytes and words *)

Lemma byte_val_range (b : byte) : 0 <= byte_val b < 256.
Proof.
  unfold byte_val. pose proof (Byte.to_N_bounded b). lia.
Qed.

Lemma byte_val_of_Z (z : Z) : byte_val (byte_of_Z z) = z mod 256.
Proof.
  unfold byte_val, byte_of_Z.
  assert (Hr : 0 <= z mod 256 < 256) by (apply Z.mod_pos_bound; lia).
  destruct (Byte.of_N (Z.to_N (z mod 256))) as [b|] eqn:E.
  - apply Byte.to_of_N in E. rewrite E. lia.
  - apply Byte.of_N_None_iff in E. lia.
Qed.

Lemma testbit_above (a k n : Z) :
  0 <= a < 2 ^ k -> k <= n -> Z.testbit a n = false.
Proof.
  intros [Ha Hlt] Hn.
  destruct (Z.eq_dec a 0) as [->|Hnz]; [apply Z.bits_0|].
  apply Z.bits_above_log2; [lia|].
  assert (Z.log2 a < k) by (apply Z.log2_lt_pow2; lia). lia.
Qed.

Lemma add_shiftl_lor (a b k : Z) :
  0 <= k -> 0 <= a < 2 ^ k -> a + Z.shiftl b k = Z.lor a (Z.shiftl b k).
Proof.
  intros Hk Ha.
  assert (Hd : Z.land a (Z.shiftl b k) = 0).
  { apply Z.bits_inj'. intros n Hn. rewrite Z.land_spec, Z.bits_0.
    destruct (Z.lt_ge_cases n k).
    - rewrite Z.shiftl_spec_low by lia. apply andb_false_r.
    - rewrite (testbit_above a k n) by lia. reflexivity. }
  rewrite Z.add_nocarry_lxor by exact Hd. apply Z.lxor_lor, Hd.
Qed.

(** Four bytes packed by addition are packed by [Z.lor] as well. *)
Lemma pack_lor (a b c d : Z) :
  0 <= a < 256 -> 0 <= b < 256 -> 0 <= c < 256 -> 0 <= d < 256 ->
  a + b * 2 ^ 8 + c * 2 ^ 16 + d * 2 ^ 24
  = Z.lor (Z.lor (Z.lor a (Z.shiftl b 8)) (Z.shiftl c 16)) (Z.shiftl d 24).
Proof.
  intros Ha Hb Hc Hd.
  rewrite <- !Z.shiftl_mul_pow2 by lia.
  assert (E1 : Z.lor a (Z.shiftl b 8) = a + Z.shiftl b 8)
    by (symmetry; apply add_shiftl_lor; lia).
  rewrite E1.
  assert (E2 : Z.lor (a + Z.shiftl b 8) (Z.shiftl c 16) = a + Z.shiftl b 8 + Z.shiftl c 16)
    by (symmetry; apply add_shiftl_lor; [lia | rewrite Z.shiftl_mul_pow2 by lia; lia]).
  rewrite E2.
  apply add_shiftl_lor; [lia | rewrite !Z.shiftl_mul_pow2 by lia; lia].
Qed.

(** [swab32] acts on each bit by itself, so it distributes over [Z.lor]. *)
Lemma swab32_lor (x y : Z) : swab32 (Z.lor x y) = Z.lor (swab32 x) (swab32 y).
Proof.
  apply Z.bits_inj'. intros n Hn. unfold swab32.
  rewrite !Z.lor_spec, !Z.shiftl_spec, !Z.shiftr_spec, !Z.land_spec, !Z.lor_spec by lia.
  btauto.
Qed.

Lemma swab32_byte0 (b : byte) : swab32 (byte_val b) = Z.shiftl (byte_val b) 24.
Proof. destruct b; vm_compute; reflexivity. Qed.

Lemma swab32_byte1 (b : byte) : swab32 (Z.shiftl (byte_val b) 8) = Z.shiftl (byte_val b) 16.
Proof. destruct b; vm_compute; reflexivity. Qed.

Lemma swab32_byte2 (b : byte) : swab32 (Z.shiftl (byte_val b) 16) = Z.shiftl (byte_val b) 8.
Proof. destruct b; vm_compute; reflexivity. Qed.

Lemma swab32_byte3 (b : byte) : swab32 (Z.shiftl (byte_val b) 24) = byte_val b.
Proof. destruct b; vm_compute; reflexivity. Qed.

(** Reading four bytes as a big-endian word and swapping it gives the word
    a little-endian machine reads from the same bytes. *)
Lemma swab32_load (b0 b1 b2 b3 : byte) :
  swab32 (load_u32 BigEndian [b0; b1; b2; b3]) = load_u32 LittleEndian [b0; b1; b2; b3].
Proof.
  unfold load_u32.
  pose proof (byte_val_range b0). pose proof (byte_val_range b1).
  pose proof (byte_val_range b2). pose proof (byte_val_range b3).
  rewrite !pack_lor by assumption.
  rewrite !swab32_lor, swab32_byte0, swab32_byte1, swab32_byte2, swab32_byte3.
  apply Z.bits_inj'. intros n Hn. rewrite !Z.lor_spec. btauto.
Qed.

(** The word [__le32_to_cpu] returns does not depend on the byte order of
    the machine: it is the little-endian reading of the bytes. *)
Lemma le32_to_cpu_load (host : byte_order) (b0 b1 b2 b3 : byte) :
  le32_to_cpu host (load_u32 host [b0; b1; b2; b3])
  = byte_val b0 + byte_val b1 * 2 ^ 8 + byte_val b2 * 2 ^ 16 + byte_val b3 * 2 ^ 24.
Proof.
  destruct host; [reflexivity|].
  unfold le32_to_cpu. rewrite swab32_load. reflexivity.
Qed.

Lemma to_int32_small (u : Z) : 0 <= u < 2 ^ 31 -> to_int32 u = u.
Proof.
  intros Hu. unfold to_int32. rewrite Z.mod_small; lia.
Qed.

(** ** The sample conversion *)

Lemma encode16le_cons (x : Z) (xs : list Z) :
  encode16le (x :: xs) = byte_of_Z x :: byte_of_Z (x / 256) :: encode16le xs.
Proof. reflexivity. Qed.

Lemma encode16le_length (xs : list Z) :
  length (encode16le xs) = (2 * length xs)%nat.
Proof.
  induction xs as [|x xs IH]; [reflexivity|].
  rewrite encode16le_cons. simpl. rewrite IH. lia.
Qed.

Lemma encode16le_drop (xs : list Z) (rest : list byte) (i : nat) :
  (i <= length xs)%nat ->
  drop (2 * i) (encode16le xs ++ rest) = encode16le (drop i xs) ++ rest.
Proof.
  revert xs. induction i as [|i IH]; intros xs Hi; [reflexivity|].
  destruct xs as [|x xs]; [simpl in Hi; lia|].
  replace (2 * S i)%nat with (S (S (2 * i))) by lia.
  rewrite encode16le_cons. simpl. apply IH. simpl in Hi. lia.
Qed.

Lemma read_sample16 (xs : list Z) (rest : list byte) (i : nat) (x : Z) :
  xs !! i = Some x ->
  read_bytes (encode16le xs ++ rest) (2 * i) 2 = Some [byte_of_Z x; byte_of_Z (x / 256)].
Proof.
  intros Hx. unfold read_bytes.
  pose proof (lookup_lt_Some _ _ _ Hx) as Hlt.
  rewrite length_app, encode16le_length.
  destruct (decide _) as [_|Hn]; [|lia].
  rewrite encode16le_drop by lia.
  rewrite (drop_S _ _ _ Hx). reflexivity.
Qed.

(** The two bytes of a sample, read back as an unsigned 16-bit number. *)
Lemma low_word (x : Z) : x mod 256 + (x / 256) mod 256 * 2 ^ 8 = x mod 65536.
Proof.
  change (2 ^ 8) with 256.
  pose proof (Z.div_mod x 256 ltac:(lia)).
  pose proof (Z.div_mod (x / 256) 256 ltac:(lia)).
  pose proof (Z.mod_pos_bound x 256 ltac:(lia)).
  pose proof (Z.mod_pos_bound (x / 256) 256 ltac:(lia)).
  apply (Z.mod_unique_pos _ _ (x / 256 / 256)); lia.
Qed.

Lemma swizzle_sample16 (host : byte_order) (xs : list Z) (rest : list byte)
    (i : nat) (x : Z) :
  xs !! i = Some x ->
  swizzle_sample host (encode16le xs ++ rest) 2 i = Some (x mod 65536).
Proof.
  intros Hx. unfold swizzle_sample, temp_sample.
  destruct (decide (2 <= 4)%nat) as [_|Hn]; [|lia].
  rewrite (read_sample16 _ _ _ _ Hx).
  cbn -[load_u32 le32_to_cpu to_int32 byte_of_Z Z.div].
  rewrite le32_to_cpu_load.
  change (byte_val Byte.x00) with 0.
  rewrite !byte_val_of_Z, Z.mul_0_l, !Z.add_0_r, low_word.
  rewrite to_int32_small; [reflexivity|].
  pose proof (Z.mod_pos_bound x 65536 ltac:(lia)). lia.
Qed.

Lemma store_sample_Some (blk : sample_block) (i : nat) (v : Z) :
  4 * (Z.of_nat i + 1) <= blk_bytes blk ->
  store_sample blk i v
  = Some {| blk_bytes := blk_bytes blk; blk_cells := <[i := v]> (blk_cells blk) |}.
Proof.
  intros H. unfold store_sample. destruct (decide _); [reflexivity|lia].
Qed.

Lemma store_sample_inv (blk blk' : sample_block) (i : nat) (v : Z) :
  store_sample blk i v = Some blk' ->
  4 * (Z.of_nat i + 1) <= blk_bytes blk
  /\ blk' = {| blk_bytes := blk_bytes blk; blk_cells := <[i := v]> (blk_cells blk) |}.
Proof.
  unfold store_sample. destruct (decide _); intros H; [|discriminate].
  injection H as <-. auto.
Qed.

(** When the loop runs to its end, it has read every sample from
    [buffer_], stored it in the cell of the same index, stayed inside the
    block and touched no other cell. *)
Lemma swizzle_from_inv (host : byte_order) (buf : list byte) (bps : nat) (n : nat) :
  forall (i : nat) (blk blk' : sample_block),
  swizzle_from host buf bps i n blk = Some blk' ->
  blk_bytes blk' = blk_bytes blk
  /\ (n = 0%nat \/ 4 * Z.of_nat (i + n) <= blk_bytes blk)
  /\ (forall j, (i <= j < i + n)%nat ->
        exists v, swizzle_sample host buf bps j = Some v /\ blk_cells blk' !! j = Some v)
  /\ (forall j, ~ (i <= j < i + n)%nat -> blk_cells blk' !! j = blk_cells blk !! j).
Proof.
  induction n as [|n IH]; intros i blk blk' H; simpl in H.
  - injection H as <-.
    split; [reflexivity|]. split; [left; reflexivity|].
    split; [intros; lia | intros; reflexivity].
  - destruct (swizzle_sample host buf bps i) as [v|] eqn:Ev; [|discriminate].
    simpl in H.
    destruct (store_sample blk i v) as [blk1|] eqn:Es; [|discriminate].
    simpl in H.
    apply store_sample_inv in Es as [Hb ->].
    apply IH in H as (Hbytes & Hcap & Hin & Hout). simpl in *.
    split; [exact Hbytes|].
    split; [right; destruct Hcap; [subst; lia | lia]|].
    split.
    + intros j Hj. destruct (decide (j = i)) as [->|Hne].
      * exists v. split; [exact Ev|].
        rewrite Hout by lia. apply lookup_insert_eq.
      * apply Hin. lia.
    + intros j Hj. rewrite Hout by lia. apply lookup_insert_ne. lia.
Qed.

(** The loop runs to its end when every read stays inside [buffer_] and
    the last cell lies inside the block. *)
Lemma swizzle_from_defined (host : byte_order) (buf : list byte) (bps : nat) (n : nat) :
  forall (i : nat) (blk : sample_block),
  (forall j, (i <= j < i + n)%nat -> is_Some (swizzle_sample host buf bps j)) ->
  (n = 0%nat \/ 4 * Z.of_nat (i + n) <= blk_bytes blk) ->
  is_Some (swizzle_from host buf bps i n blk).
Proof.
  induction n as [|n IH]; intros i blk Hr Hc; simpl; [eauto|].
  destruct (Hr i ltac:(lia)) as [v Ev]. rewrite Ev. simpl.
  destruct Hc as [Hc|Hc]; [discriminate|].
  rewrite store_sample_Some by lia. simpl.
  apply IH.
  - intros j Hj. apply Hr. lia.
  - right. simpl. lia.
Qed.

Lemma samples_written_lookup (n : nat) (blk : sample_block) (i : nat) :
  (i < n)%nat -> samples_written n blk !! i = Some (blk_cells blk !! i).
Proof.
  intros Hi. unfold samples_written.
  rewrite list_lookup_fmap, lookup_seq_lt by exact Hi. reflexivity.
Qed.

Lemma samples_written_length (n : nat) (blk : sample_block) :
  length (samples_written n blk) = n.
Proof. unfold samples_written. rewrite length_fmap. apply length_seq. Qed.

(** C1, as amended: for a buffer of 16-bit samples (two's complement, low
    byte first, whatever follows them in [buffer_]) the conversion loop of
    [worker] runs to its end on either byte order and leaves in cell [i]
    of [bd.samples] the bytes of input sample [i] in the low half of the
    word with the high half zero: the value [x mod 65536]. Interleaved
    order is kept; a sample in [0, 32767] comes out numerically equal, a
    negative sample [x] comes out as [x + 65536]. *)
Theorem swizzle_16bit_keeps_low_word (host : byte_order) (xs : list Z)
    (rest : list byte) (blk : sample_block) :
  4 * Z.of_nat (length xs) <= blk_bytes blk ->
  exists blk',
    swizzle host (encode16le xs ++ rest) 2 (length xs) blk = Some blk'
    /\ samples_written (length xs) blk' = (fun x => Some (x mod 65536)) <$> xs
    /\ (forall i x, xs !! i = Some x -> 0 <= x < 2 ^ 15 ->
          blk_cells blk' !! i = Some x)
    /\ (forall i x, xs !! i = Some x -> - 2 ^ 15 <= x < 0 ->
          blk_cells blk' !! i = Some (x + 65536)).
Proof.
  intros Hcap.
  assert (Hsample : forall j, (j < length xs)%nat ->
            exists x, xs !! j = Some x
              /\ swizzle_sample host (encode16le xs ++ rest) 2 j = Some (x mod 65536)).
  { intros j Hj. destruct (lookup_lt_is_Some_2 xs j Hj) as [x Hx].
    exists x. split; [exact Hx | apply swizzle_sample16, Hx]. }
  destruct (swizzle_from_defined host (encode16le xs ++ rest) 2 (length xs) 0 blk)
    as [blk' Hrun].
  { intros j Hj. destruct (Hsample j ltac:(lia)) as (x & _ & ->). eauto. }
  { right. simpl. lia. }
  exists blk'. split; [exact Hrun|].
  apply swizzle_from_inv in Hrun as (_ & _ & Hin & _).
  assert (Hcell : forall i x, xs !! i = Some x -> blk_cells blk' !! i = Some (x mod 65536)).
  { intros i x Hx. pose proof (lookup_lt_Some _ _ _ Hx) as Hi.
    destruct (Hin i ltac:(lia)) as (v & Hv & Hc).
    rewrite (swizzle_sample16 host xs rest i x Hx) in Hv. congruence. }
  split; [|split].
  - apply list_eq. intros i.
    destruct (decide (i < length xs)%nat) as [Hi|Hi].
    + rewrite samples_written_lookup by exact Hi.
      rewrite list_lookup_fmap.
      destruct (lookup_lt_is_Some_2 xs i Hi) as [x Hx].
      rewrite Hx. simpl. f_equal. apply Hcell, Hx.
    + rewrite !lookup_ge_None_2; [reflexivity | |].
      * rewrite length_fmap. lia.
      * rewrite samples_written_length. lia.
  - intros i x Hx Hr. rewrite (Hcell i x Hx). f_equal.
    apply Z.mod_small. lia.
  - intros i x Hx Hr. rewrite (Hcell i x Hx). f_equal.
    symmetry. apply (Z.mod_unique_pos _ _ (-1)); lia.
Qed.

Lemma swizzle_16bit_keeps_low_word_witness :
  exists blk',
    swizzle BigEndian (encode16le [100; -100; 200; -200] ++ []) 2
      (length [100; -100; 200; -200]) (fresh_block 16) = Some blk'
    /\ samples_written (length [100; -100; 200; -200]) blk'
       = (fun x => Some (x mod 65536)) <$> [100; -100; 200; -200]
    /\ (forall i x, [100; -100; 200; -200] !! i = Some x -> 0 <= x < 2 ^ 15 ->
          blk_cells blk' !! i = Some x)
    /\ (forall i x, [100; -100; 200; -200] !! i = Some x -> - 2 ^ 15 <= x < 0 ->
          blk_cells blk' !! i = Some (x + 65536)).
Proof.
  apply (swizzle_16bit_keeps_low_word BigEndian [100; -100; 200; -200] [] (fresh_block 16)).
  simpl. lia.
Defined.

(** C1, as stated, fails: for the 2-channel 16-bit sequence
    [100, -100, 200, -200] the loop leaves [100, 65436, 200, 65336] in
    [bd.samples], on a little-endian and on a big-endian machine: the two
    bytes of a sample are copied into a zeroed 32-bit word, so a negative
    sample is zero-extended. *)
Lemma swizzle_zero_extends_negative_samples :
  (samples_written 4
     <$> swizzle LittleEndian (encode16le [100; -100; 200; -200]) 2 4 (fresh_block 16)
   = Some [Some 100; Some 65436; Some 200; Some 65336])
  /\ (samples_written 4
        <$> swizzle BigEndian (encode16le [100; -100; 200; -200]) 2 4 (fresh_block 16)
      = Some [Some 100; Some 65436; Some 200; Some 65336])
  /\ samples_written 4
       <$> swizzle LittleEndian (encode16le [100; -100; 200; -200]) 2 4 (fresh_block 16)
     <> Some [Some 100; Some (-100); Some 200; Some (-200)].
Proof.
  assert (E : forall host,
    samples_written 4 <$> swizzle host (encode16le [100; -100; 200; -200]) 2 4 (fresh_block 16)
    = Some [Some 100; Some 65436; Some 200; Some 65336]).
  { intros []; vm_compute; reflexivity. }
  split; [apply E|]. split; [apply E|].
  rewrite E. intros H. discriminate H.
Qed.

(** ** Start-up and shutdown *)

(** [init] leaves [active_] alone and never starts the loop. *)
Lemma init_keeps_active (P : Platform) (fmt : SampleFormat) (env : InitEnv)
    (st : SonosLLAPlayer) :
  active_ (init P fmt env st).1.2 = active_ st
  /\ PlayerStart ∉ (init P fmt env st).2.
Proof.
  unfold init, bind, modify, emit, throw, ret.
  destruct (open_output_ret env <? 0), (malloc_succeeds env),
    (platform_init_ret env <? 0); simpl; (split; [reflexivity|]);
    rewrite ?elem_of_cons, elem_of_nil; intros H;
    repeat (destruct H as [H|H]; [discriminate H|]); exact H.
Qed.

(** [start] in terms of how [init] ends. *)
Lemma start_unfold (P : Platform) (fmt : SampleFormat) (env : InitEnv)
    (st : SonosLLAPlayer) :
  start P fmt env st =
  match init P fmt env st with
  | (Returns _, st1, tr1) => (Returns tt, set_active true st1, tr1 ++ [PlayerStart])
  | (Throws code, st1, tr1) =>
      if code =? - EBUSY
      then (Returns tt, set_active true st1, tr1 ++ [PlayerStart])
      else (Throws code, st1, tr1)
  | (Undefined, st1, tr1) => (Undefined, st1, tr1)
  end.
Proof.
  unfold start, try_catch, bind at 1.
  destruct (init P fmt env st) as [[[u|code|] st1] tr1]; simpl.
  - destruct u. reflexivity.
  - destruct (code =? - EBUSY); simpl; rewrite ?app_nil_r; reflexivity.
  - reflexivity.
Qed.

(** C2: [start] calls [init]; when [init] throws with the code [-EBUSY]
    the exception is swallowed and [start] goes on to [Player::start], so
    the engine is left running; when [init] throws with any other code
    the exception leaves [start] with that code, [Player::start] is not
    called and [active_] is what it was. *)
Theorem start_tolerates_only_device_busy (P : Platform) (fmt : SampleFormat)
    (env : InitEnv) (st st1 : SonosLLAPlayer) (tr1 : list event) (code : Z) :
  init P fmt env st = (Throws code, st1, tr1) ->
  (code = - EBUSY ->
     start P fmt env st = (Returns tt, set_active true st1, tr1 ++ [PlayerStart])
     /\ active_ (start P fmt env st).1.2 = true)
  /\ (code <> - EBUSY ->
     start P fmt env st = (Throws code, st1, tr1)
     /\ active_ st1 = active_ st
     /\ PlayerStart ∉ tr1).
Proof.
  intros Hinit.
  pose proof (init_keeps_active P fmt env st) as [Hact Hnostart].
  rewrite Hinit in Hact, Hnostart. simpl in Hact, Hnostart.
  rewrite start_unfold, Hinit.
  split.
  - intros ->. rewrite Z.eqb_refl. split; reflexivity.
  - intros Hne. apply Z.eqb_neq in Hne. rewrite Hne. auto.
Qed.

Lemma start_tolerates_only_device_busy_witness :
  start (alsa_platform (- EBUSY)) cd_stereo env_open_fails constructed
  = (Returns tt,
     set_active true (set_out_instance None (set_num_samples 200 constructed)),
     [OpenOutput 200 2 2] ++ [PlayerStart])
  /\ active_ (start (alsa_platform (- EBUSY)) cd_stereo env_open_fails constructed).1.2
     = true.
Proof.
  exact (proj1 (start_tolerates_only_device_busy (alsa_platform (- EBUSY)) cd_stereo
                  env_open_fails constructed _ _ _ eq_refl) eq_refl).
Defined.

(** With the exception code of this build different from [-EBUSY], a
    failed open aborts the start. *)
Example start_aborts_on_other_code :
  start (alsa_platform 0) cd_stereo env_open_fails constructed
  = (Throws 0, set_out_instance None (set_num_samples 200 constructed),
     [OpenOutput 200 2 2]).
Proof. reflexivity. Qed.

(** [uninit] on an object that holds nothing: only [platform_exit] is
    called and the object is unchanged. *)
Lemma uninit_nothing_allocated :
  uninit constructed = (Returns tt, constructed, [PlatformExit]).
Proof. reflexivity. Qed.

(** [uninit] never throws, leaves the sample pointer null and frees the
    block at most once: a second [uninit] does not call [free]. *)
Lemma uninit_frees_once (st : SonosLLAPlayer) :
  (uninit st).1.1 = Returns tt
  /\ bd_samples (uninit st).1.2 = None
  /\ Free ∉ (uninit (uninit st).1.2).2.
Proof.
  unfold uninit, bind, get, modify, emit, ret.
  destruct st as [a b m [i|] [o|] [blk|] n]; simpl;
    (split; [reflexivity|]); (split; [reflexivity|]);
    rewrite ?elem_of_cons, elem_of_nil; intros H;
    repeat (destruct H as [H|H]; [discriminate H|]); exact H.
Qed.

(** The second [uninit] calls [close_fun] again on every token the first
    one closed: the tokens are not reset. *)
Lemma uninit_closes_again (st : SonosLLAPlayer) (t : Z) :
  CloseFun t ∈ (uninit st).2 -> CloseFun t ∈ (uninit (uninit st).1.2).2.
Proof.
  unfold uninit, bind, get, modify, emit, ret.
  destruct st as [a b m [i|] [o|] [blk|] n]; simpl;
    rewrite ?elem_of_cons, ?elem_of_nil; intros H;
    repeat (destruct H as [H|H]; [try discriminate H; auto|]); try contradiction; auto 10.
Qed.

(** C6, the failing run: a start that succeeds, then [stop] twice (the
    explicit [stop] and the one of the destructor). The first [stop]
    closes both instances and frees the block; the second one does not
    free again, but it calls [close_fun] again on both tokens, which the
    first [stop] has already closed. *)
Lemma stop_twice_closes_twice :
  let started := (start (alsa_platform 0) cd_stereo env_ok constructed).1.2 in
  let stopped := (stop started).1.2 in
  (start (alsa_platform 0) cd_stereo env_ok constructed).1.1 = Returns tt
  /\ (stop started).2 = [PlayerStop; PlatformExit; CloseFun 5; CloseFun 7; Free]
  /\ (stop stopped).2 = [PlayerStop; PlatformExit; CloseFun 5; CloseFun 7]
  /\ (stop stopped).1.2 = stopped.
Proof. vm_compute. repeat split; reflexivity. Qed.

(** ** One iteration of the pacing loop *)

Section Iteration.

Variable P : Platform.
Variable fmt : SampleFormat.

(** What [iteration_body] does, with the monad unfolded: the buffer after
    retrieval and scaling, the calls made up to the conversion, and the
    three ways the conversion can end. *)
Lemma iteration_body_unfold (time : Z) (q : queue_response) (write_ret : Z)
    (st : SonosLLAPlayer) :
  let numFrames := bd_num_samples st in
  let needed := Z.to_nat (numFrames * frameSize fmt) in
  let r := getPlayerChunkOrSilence q needed in
  let retrieved := r.2 ++ drop needed (resize_up (buffer_ st) needed) in
  let buf := if r.1 then adjustVolume P retrieved numFrames else retrieved in
  let pre := [GetPlayerChunkOrSilence time numFrames;
              if r.1 then AdjustVolume numFrames else LogSilence] in
  let count := Z.to_nat (numFrames * channels fmt) in
  iteration_body P fmt time q write_ret st =
  match bd_samples st, count with
  | None, O =>
      (Returns tt, set_bd_num_samples numFrames (set_buffer buf st),
       pre ++ [WriteFun (out_instance st) ∅ numFrames])
  | None, S _ => (Undefined, set_buffer buf st, pre)
  | Some blk, _ =>
      match swizzle (host_order P) buf (Z.to_nat (bits fmt / 8)) count blk with
      | None => (Undefined, set_buffer buf st, pre)
      | Some blk' =>
          (Returns tt,
           set_bd_num_samples numFrames (set_samples (Some blk') (set_buffer buf st)),
           pre ++ [WriteFun (out_instance st) (blk_cells blk') numFrames])
      end
  end.
Proof.
  intros numFrames needed r retrieved buf pre count.
  subst numFrames needed r retrieved buf pre count.
  unfold iteration_body, bind, get, modify, emit, undefined.
  destruct st as [a b m i o sm n], q as [pcm|]; simpl;
    (destruct sm as [blk|]; simpl;
     [ destruct (swizzle _ _ _ _ _); reflexivity
     | destruct (Z.to_nat (n * channels fmt)); reflexivity ]).
Qed.

End Iteration.

(** C8: in every iteration [adjustVolume] is called on the retrieved bytes
    if and only if [getPlayerChunkOrSilence] returned true; when silence
    was substituted the buffer goes to the conversion unscaled. *)
Theorem volume_scaled_iff_chunk_retrieved (P : Platform) (fmt : SampleFormat)
    (time : Z) (q : queue_response) (write_ret : Z) (st : SonosLLAPlayer) :
  let numFrames := bd_num_samples st in
  let needed := Z.to_nat (numFrames * frameSize fmt) in
  let r := getPlayerChunkOrSilence q needed in
  let retrieved := r.2 ++ drop needed (resize_up (buffer_ st) needed) in
  let out := iteration_body P fmt time q write_ret st in
  ((exists frames, AdjustVolume frames ∈ out.2) <-> r.1 = true)
  /\ (AdjustVolume numFrames ∈ out.2 <-> r.1 = true)
  /\ buffer_ out.1.2 = (if r.1 then adjustVolume P retrieved numFrames else retrieved).
Proof.
  intros numFrames needed r retrieved out. subst out.
  rewrite iteration_body_unfold.
  fold numFrames. fold needed. fold r. fold retrieved.
  destruct (r.1) eqn:Er;
    (destruct (bd_samples st) as [blk|];
     [ destruct (swizzle _ _ _ _ _)
     | destruct (Z.to_nat (numFrames * channels fmt)) ]);
    simpl; (split; [|split; [|reflexivity]]); trace_membership.
  all: split;
    [ intros [frames H]; revert H; trace_membership
    | intros H; try discriminate H; exists numFrames; trace_membership ].
Qed.

(** *** Underrun *)

Lemma read_bytes_zero (n : nat) (rest : list byte) (off len : nat) :
  (off + len <= n)%nat ->
  read_bytes (replicate n Byte.x00 ++ rest) off len = Some (replicate len Byte.x00).
Proof.
  intros H. unfold read_bytes.
  rewrite length_app, length_replicate.
  destruct (decide _) as [_|Hn]; [|lia].
  rewrite drop_app_le by (rewrite length_replicate; lia).
  rewrite drop_replicate.
  rewrite take_app_le by (rewrite length_replicate; lia).
  rewrite take_replicate. do 2 f_equal. lia.
Qed.

(** A sample read from the zeroed part of the buffer is 0. *)
Lemma swizzle_sample_zero (host : byte_order) (n : nat) (rest : list byte)
    (bps j : nat) :
  (bps <= 4)%nat -> (2 * j + bps <= n)%nat ->
  swizzle_sample host (replicate n Byte.x00 ++ rest) bps j = Some 0.
Proof.
  intros Hb Hj. unfold swizzle_sample, temp_sample.
  destruct (decide (bps <= 4)%nat) as [_|Hn]; [|lia].
  rewrite read_bytes_zero by exact Hj.
  cbn -[load_u32 le32_to_cpu to_int32 replicate].
  rewrite <- replicate_add. replace (bps + (4 - bps))%nat with 4%nat by lia.
  destruct host; reflexivity.
Qed.

(** The bytes a frame count asks for are one sample width per converted
    sample. *)
Lemma needed_is_count_times_width (fmt : SampleFormat) (numFrames : Z) :
  0 <= numFrames -> 0 <= channels fmt -> 0 <= bits fmt / 8 ->
  Z.to_nat (numFrames * frameSize fmt)
  = (Z.to_nat (numFrames * channels fmt) * Z.to_nat (bits fmt / 8))%nat.
Proof.
  intros Hn Hc Hb. unfold frameSize.
  rewrite <- Z2Nat.inj_mul by nia. f_equal. ring.
Qed.

(** C3, as amended: in an iteration whose retrieval returns false (the stream had
    nothing in time) the first [numFrames * frameSize] bytes of [buffer_],
    the region handed to the retrieval, are all zero, and they are the
    whole buffer unless it was longer before; no exception leaves the
    iteration; no volume scaling is applied; and whenever the conversion
    stays inside [buffer_] and [bd.samples] the iteration runs to its end:
    the buffer is converted and handed to [write_fun]. For samples of 2, 3
    or 4 bytes and a block that holds [numFrames * channels] words that is
    always so, and every sample the device receives is 0. *)
Theorem underrun_plays_silence (P : Platform) (fmt : SampleFormat) (time : Z)
    (write_ret : Z) (st : SonosLLAPlayer) :
  let numFrames := bd_num_samples st in
  let needed := Z.to_nat (numFrames * frameSize fmt) in
  let count := Z.to_nat (numFrames * channels fmt) in
  let out := iteration_body P fmt time NotReady write_ret st in
  (getPlayerChunkOrSilence NotReady needed).1 = false
  /\ take needed (buffer_ out.1.2) = replicate needed Byte.x00
  /\ ((length (buffer_ st) <= needed)%nat ->
        buffer_ out.1.2 = replicate needed Byte.x00)
  /\ (forall code, out.1.1 <> Throws code)
  /\ (forall frames, AdjustVolume frames ∉ out.2)
  /\ (forall blk blk',
        bd_samples st = Some blk ->
        swizzle (host_order P) (buffer_ out.1.2) (Z.to_nat (bits fmt / 8)) count blk
        = Some blk' ->
        out.1.1 = Returns tt
        /\ out.2 = [GetPlayerChunkOrSilence time numFrames; LogSilence;
                    WriteFun (out_instance st) (blk_cells blk') numFrames])
  /\ (forall blk,
        bd_samples st = Some blk ->
        2 <= bits fmt / 8 <= 4 -> 0 <= numFrames -> 0 <= channels fmt ->
        4 * (numFrames * channels fmt) <= blk_bytes blk ->
        exists blk',
          out.1.1 = Returns tt
          /\ out.2 = [GetPlayerChunkOrSilence time numFrames; LogSilence;
                      WriteFun (out_instance st) (blk_cells blk') numFrames]
          /\ samples_written count blk' = replicate count (Some 0)).
Proof.
  intros numFrames needed count out.
  set (rest := drop needed (resize_up (buffer_ st) needed)).
  assert (Hbuf : buffer_ out.1.2 = replicate needed Byte.x00 ++ rest).
  { subst out. rewrite iteration_body_unfold.
    fold numFrames. fold needed. fold count. simpl.
    destruct (bd_samples st) as [blk|];
      [destruct (swizzle _ _ _ _ _) | destruct count]; reflexivity. }
  split; [reflexivity|].
  split; [rewrite Hbuf; apply take_app_length'; rewrite length_replicate; reflexivity|].
  split.
  { intros Hlen. rewrite Hbuf. subst rest. unfold resize_up.
    destruct (decide _) as [Hlt|Hge].
    - rewrite drop_ge, app_nil_r; [reflexivity|].
      rewrite length_app, length_replicate. lia.
    - rewrite drop_ge, app_nil_r; [reflexivity|]. lia. }
  split.
  { intros code. subst out. rewrite iteration_body_unfold.
    fold numFrames. fold needed. fold count. simpl.
    destruct (bd_samples st) as [blk|];
      [destruct (swizzle _ _ _ _ _) | destruct count]; simpl; discriminate. }
  split.
  { intros frames. subst out. rewrite iteration_body_unfold.
    fold numFrames. fold needed. fold count. simpl.
    destruct (bd_samples st) as [blk|];
      [destruct (swizzle _ _ _ _ _) | destruct count]; simpl; trace_membership. }
  assert (Hrun : forall blk blk',
    bd_samples st = Some blk ->
    swizzle (host_order P) (buffer_ out.1.2) (Z.to_nat (bits fmt / 8)) count blk
    = Some blk' ->
    out.1.1 = Returns tt
    /\ out.2 = [GetPlayerChunkOrSilence time numFrames; LogSilence;
                WriteFun (out_instance st) (blk_cells blk') numFrames]).
  { intros blk blk' Hblk Hsw. rewrite Hbuf in Hsw. subst out.
    rewrite iteration_body_unfold.
    fold numFrames. fold needed. fold count. simpl. fold rest.
    rewrite Hblk, Hsw. split; reflexivity. }
  split; [exact Hrun|].
  intros blk Hblk Hw Hn Hc Hcap.
  assert (Hneeded : needed = (count * Z.to_nat (bits fmt / 8))%nat)
    by (apply needed_is_count_times_width; lia).
  assert (Hzero : forall j, (j < count)%nat ->
    swizzle_sample (host_order P) (buffer_ out.1.2) (Z.to_nat (bits fmt / 8)) j = Some 0).
  { intros j Hj. rewrite Hbuf. apply swizzle_sample_zero; [lia|].
    rewrite Hneeded. nia. }
  destruct (swizzle_from_defined (host_order P) (buffer_ out.1.2)
              (Z.to_nat (bits fmt / 8)) count 0 blk) as [blk' Hsw].
  { intros j Hj. rewrite Hzero by lia. eauto. }
  { right. simpl. subst count. rewrite Z2Nat.id by nia. lia. }
  exists blk'. destruct (Hrun blk blk' Hblk Hsw) as [Hret Htr].
  split; [exact Hret|]. split; [exact Htr|].
  apply swizzle_from_inv in Hsw as (_ & _ & Hin & _).
  apply list_eq. intros i.
  destruct (decide (i < count)%nat) as [Hi|Hi].
  - rewrite samples_written_lookup, lookup_replicate_2 by exact Hi.
    destruct (Hin i ltac:(lia)) as (v & Hv & Hcell).
    rewrite Hzero in Hv by exact Hi. congruence.
  - rewrite !lookup_ge_None_2; [reflexivity | |].
    + rewrite length_replicate. lia.
    + rewrite samples_written_length. lia.
Qed.

(** *** The time budget *)




Example time_budget_48k : time_budget cd_stereo 12800 = Some 266.
Proof. reflexivity. Qed.

Section Worker.

Variable P : Platform.
Variable fmt : SampleFormat.
Variable o : Oracle.

(** [iteration_body] leaves [bd.num_samples] as it found it, calls the
    retrieval with the budget it was given and the frame count of [bd],
    and does not wait. *)
Lemma iteration_body_calls (time : Z) (q : queue_response) (write_ret : Z)
    (st : SonosLLAPlayer) :
  let out := iteration_body P fmt time q write_ret st in
  bd_num_samples out.1.2 = bd_num_samples st
  /\ Forall (retrieval_with time (bd_num_samples st)) out.2
  /\ (forall ms, WaitForChunk ms ∉ out.2)
  /\ (exists tail, out.2 = GetPlayerChunkOrSilence time (bd_num_samples st) :: tail
        /\ forall ms frames, GetPlayerChunkOrSilence ms frames ∉ tail).
Proof.
  intros out. subst out. rewrite iteration_body_unfold.
  destruct (getPlayerChunkOrSilence q _).1;
    (destruct (bd_samples st) as [blk|];
     [ destruct (swizzle _ _ _ _ _)
     | destruct (Z.to_nat (bd_num_samples st * channels fmt)) ]);
    simpl; (split; [reflexivity|]);
    (split; [repeat constructor|]);
    (split; [intros ms; trace_membership|]);
    (eexists; split; [reflexivity|]; intros ms frames; trace_membership).
Qed.

(** The body never throws: it returns or leaves defined behaviour. *)
Lemma iteration_body_no_throw (time : Z) (q : queue_response) (write_ret : Z)
    (st : SonosLLAPlayer) (code : Z) :
  (iteration_body P fmt time q write_ret st).1.1 <> Throws code.
Proof.
  rewrite iteration_body_unfold.
  destruct (bd_samples st) as [blk|];
    [ destruct (swizzle _ _ _ _ _)
    | destruct (Z.to_nat (bd_num_samples st * channels fmt)) ];
    simpl; discriminate.
Qed.

(** What [write_fun] returns is not looked at. *)
Lemma iteration_body_ignores_write_result (time : Z) (q : queue_response)
    (r1 r2 : Z) (st : SonosLLAPlayer) :
  iteration_body P fmt time q r1 st = iteration_body P fmt time q r2 st.
Proof. reflexivity. Qed.

(** The shape of the state after the rest of an iteration. *)
Lemma run_body_shape (time : Z) (s : wstate) (reads polls : nat) (tr : list event) :
  let out := iteration_body P fmt time (queue_at o (w_rounds s))
               (write_at o (w_rounds s)) (w_player s) in
  let s' := run_body P fmt o time s reads polls tr in
  (w_pc s' = AtOuter \/ w_pc s' = Crashed)
  /\ (w_pc s' = AtOuter <-> out.1.1 = Returns tt)
  /\ w_player s' = out.1.2
  /\ w_reads s' = reads /\ w_polls s' = polls /\ w_rounds s' = S (w_rounds s)
  /\ w_trace s' = w_trace s ++ tr ++ out.2.
Proof.
  intros out s'. subst s'. unfold run_body. fold out.
  destruct out as [[[[]|code|] st'] tr']; simpl;
    repeat split; auto; try discriminate; intros H; discriminate H.
Qed.

End Worker.

Section WorkerLoop.

Variable P : Platform.
Variable fmt : SampleFormat.
Variable o : Oracle.






End WorkerLoop.



(** *** Leaving the loop *)

Section WorkerExit.

Variable P : Platform.
Variable fmt : SampleFormat.
Variable o : Oracle.

(** The worker returns only from the outer condition, on reading [active_]
    as false. *)
Lemma step_exit (s : wstate) :
  w_pc (step P fmt o s) = Exited ->
  w_pc s = Exited \/ (w_pc s = AtOuter /\ active_at o (w_reads s) = false).
Proof.
  unfold step. destruct (w_pc s) as [|time| |] eqn:Epc.
  - destruct (active_at o (w_reads s)); simpl; [|auto].
    destruct (time_budget fmt _); intros H; discriminate H.
  - destruct (active_at o (w_reads s)); [destruct (wait_at o (w_polls s))|];
      try (simpl; intros H; discriminate H).
    + destruct (run_body_shape P fmt o time s (S (w_reads s)) (S (w_polls s))
                  [WaitForChunk 100]) as ([H|H] & _); rewrite H; intros E; discriminate E.
    + destruct (run_body_shape P fmt o time s (S (w_reads s)) (w_polls s) [])
        as ([H|H] & _); rewrite H; intros E; discriminate E.
  - auto.
  - rewrite Epc. intros H. discriminate H.
Qed.

Lemma worker_never_exits_while_active (fuel : nat) :
  (forall k, active_at o k = true) ->
  forall s, w_pc s <> Exited -> w_pc (worker P fmt o fuel s) <> Exited.
Proof.
  intros Hact. induction fuel as [|fuel IH]; intros s Hs; simpl; [exact Hs|].
  apply IH. intros Hex. apply step_exit in Hex as [H|[_ H]]; [contradiction|].
  rewrite Hact in H. discriminate H.
Qed.

(** A worker that has returned has read [active_] as false. *)
Lemma worker_exit_read_false (fuel : nat) (st : SonosLLAPlayer) :
  let s := worker P fmt o fuel (worker_entry st) in
  w_pc s = Exited ->
  exists k, (k < w_reads s)%nat /\ active_at o k = false.
Proof.
  intros s. subst s.
  assert (Hinv : forall fuel s,
    (w_pc s = Exited -> exists k, (k < w_reads s)%nat /\ active_at o k = false) ->
    w_pc (worker P fmt o fuel s) = Exited ->
    exists k, (k < w_reads (worker P fmt o fuel s))%nat /\ active_at o k = false).
  { clear fuel. induction fuel as [|fuel IH]; intros s Hs; simpl; [exact Hs|].
    apply IH. intros Hex.
    destruct (step_exit s Hex) as [H|[Epc Hact]].
    - assert (E : step P fmt o s = s) by (unfold step; rewrite H; reflexivity).
      rewrite E. exact (Hs H).
    - exists (w_reads s). split; [|exact Hact].
      unfold step. rewrite Epc, Hact. simpl. lia. }
  apply Hinv. simpl. intros H. discriminate H.
Qed.

(** A worker that has returned or left defined behaviour does nothing
    more. *)
Lemma worker_stopped (fuel : nat) (s : wstate) :
  w_pc s = Exited \/ w_pc s = Crashed ->
  worker P fmt o fuel s = s.
Proof.
  intros Hs. induction fuel as [|fuel IH]; simpl; [reflexivity|].
  assert (E : step P fmt o s = s)
    by (unfold step; destruct Hs as [-> | ->]; reflexivity).
  rewrite E. exact IH.
Qed.

Lemma worker_add (a b : nat) (s : wstate) :
  worker P fmt o (a + b) s = worker P fmt o b (worker P fmt o a s).
Proof.
  revert s. induction a as [|a IH]; intros s; simpl; [reflexivity|]. apply IH.
Qed.

(** A step leaves defined behaviour only at line 179, when the budget has
    no defined value, or in the rest of an iteration, when
    [iteration_body] does. *)
Lemma step_crash (s : wstate) :
  w_pc (step P fmt o s) = Crashed ->
  w_pc s = Crashed
  \/ (w_pc s = AtOuter /\ active_at o (w_reads s) = true
      /\ time_budget fmt (bd_num_samples (w_player s)) = None)
  \/ (exists t, w_pc s = AtInner t
        /\ (active_at o (w_reads s) = false \/ wait_at o (w_polls s) = true)
        /\ (iteration_body P fmt t (queue_at o (w_rounds s))
              (write_at o (w_rounds s)) (w_player s)).1.1 = Undefined).
Proof.
  unfold step. destruct (w_pc s) as [|time| |] eqn:Epc.
  - destruct (active_at o (w_reads s)); simpl; [|intros H; discriminate H].
    destruct (time_budget fmt _); intros H; [discriminate H | auto].
  - assert (Hbody : forall reads polls tr,
      w_pc (run_body P fmt o time s reads polls tr) = Crashed ->
      (iteration_body P fmt time (queue_at o (w_rounds s))
         (write_at o (w_rounds s)) (w_player s)).1.1 = Undefined).
    { intros reads polls tr Hc.
      destruct (run_body_shape P fmt o time s reads polls tr) as (_ & Hiff & _).
      pose proof (iteration_body_no_throw P fmt time (queue_at o (w_rounds s))
                    (write_at o (w_rounds s)) (w_player s)) as Hnt.
      destruct (iteration_body _ _ _ _ _ _).1.1 as [[]|code|] eqn:E.
      - rewrite (proj2 Hiff eq_refl) in Hc. discriminate Hc.
      - exfalso. exact (Hnt code eq_refl).
      - reflexivity. }
    destruct (active_at o (w_reads s)); [destruct (wait_at o (w_polls s))|].
    + intros Hc. right. right. exists time. eauto.
    + simpl. intros H. discriminate H.
    + intros Hc. right. right. exists time. eauto.
  - rewrite Epc. intros H. discriminate H.
  - auto.
Qed.

(** A wait is started only right after [active_] was read as true. *)
Lemma step_polls (s : wstate) :
  w_polls (step P fmt o s) <> w_polls s ->
  active_at o (w_reads s) = true
  /\ w_reads (step P fmt o s) = S (w_reads s)
  /\ w_polls (step P fmt o s) = S (w_polls s).
Proof.
  unfold step. destruct (w_pc s) as [|time| |] eqn:Epc.
  - destruct (active_at o (w_reads s)); simpl; intros H; contradiction.
  - destruct (active_at o (w_reads s)); [destruct (wait_at o (w_polls s))|].
    + destruct (run_body_shape P fmt o time s (S (w_reads s)) (S (w_polls s))
                  [WaitForChunk 100]) as (_ & _ & _ & Hr & Hp & _).
      rewrite Hr, Hp. auto.
    + simpl. auto.
    + destruct (run_body_shape P fmt o time s (S (w_reads s)) (w_polls s) [])
        as (_ & _ & _ & Hr & Hp & _).
      rewrite Hp. intros H. contradiction.
  - intros H. contradiction.
  - intros H. contradiction.
Qed.

Lemma step_waits_bounded (s : wstate) :
  Forall (wait_bounded_by 100) (w_trace s) ->
  Forall (wait_bounded_by 100) (w_trace (step P fmt o s)).
Proof.
  intros Htr. unfold step.
  assert (Hbody : forall time reads polls tr,
    Forall (wait_bounded_by 100) tr ->
    Forall (wait_bounded_by 100) (w_trace (run_body P fmt o time s reads polls tr))).
  { intros time reads polls tr Hpre.
    destruct (run_body_shape P fmt o time s reads polls tr)
      as (_ & _ & _ & _ & _ & _ & Htrace).
    destruct (iteration_body_calls P fmt time (queue_at o (w_rounds s))
                (write_at o (w_rounds s)) (w_player s)) as (_ & _ & Hnowait & _).
    rewrite Htrace.
    apply Forall_app; split; [exact Htr|].
    apply Forall_app; split; [exact Hpre|].
    apply Forall_forall. intros e He. destruct e; simpl; auto.
    exfalso. exact (Hnowait _ He). }
  destruct (w_pc s) as [|time| |].
  - destruct (active_at o (w_reads s)); exact Htr.
  - destruct (active_at o (w_reads s)); [destruct (wait_at o (w_polls s))|].
    + apply Hbody. repeat constructor.
    + simpl. apply Forall_app; split; [exact Htr | repeat constructor].
    + apply Hbody. constructor.
  - exact Htr.
  - exact Htr.
Qed.

Lemma worker_waits_bounded (fuel : nat) :
  forall s,
  Forall (wait_bounded_by 100) (w_trace s) ->
  Forall (wait_bounded_by 100) (w_trace (worker P fmt o fuel s)).
Proof.
  induction fuel as [|fuel IH]; intros s Htr; simpl; [exact Htr|].
  apply IH, step_waits_bounded, Htr.
Qed.

(** Once [active_] reads false from now on, two evaluations of a loop
    condition end the worker: no wait is started and at most the
    iteration in progress is finished. *)
Lemma worker_stops_within_one_iteration (s : wstate) :
  (forall k, (w_reads s <= k)%nat -> active_at o k = false) ->
  let s' := worker P fmt o 2 s in
  (w_pc s' = Exited \/ w_pc s' = Crashed)
  /\ w_polls s' = w_polls s
  /\ (w_rounds s' <= S (w_rounds s))%nat
  /\ (forall ms, WaitForChunk ms ∈ w_trace s' -> WaitForChunk ms ∈ w_trace s).
Proof.
  intros Hstop s'. subst s'.
  change (worker P fmt o 2 s) with (step P fmt o (step P fmt o s)).
  pose proof (Hstop (w_reads s) ltac:(lia)) as H0.
  destruct (w_pc s) as [|time| |] eqn:Epc.
  - assert (E1 : step P fmt o s =
      {| w_pc := Exited; w_player := w_player s; w_reads := S (w_reads s);
         w_polls := w_polls s; w_rounds := w_rounds s; w_trace := w_trace s |})
      by (unfold step; rewrite Epc, H0; reflexivity).
    rewrite E1. unfold step. simpl. auto 6.
  - assert (E1 : step P fmt o s
                 = run_body P fmt o time s (S (w_reads s)) (w_polls s) [])
      by (unfold step; rewrite Epc, H0; reflexivity).
    rewrite E1.
    destruct (run_body_shape P fmt o time s (S (w_reads s)) (w_polls s) [])
      as (Hpc & _ & _ & Hr & Hp & Hrounds & Htrace).
    destruct (iteration_body_calls P fmt time (queue_at o (w_rounds s))
                (write_at o (w_rounds s)) (w_player s)) as (_ & _ & Hnowait & _).
    set (s1 := run_body P fmt o time s (S (w_reads s)) (w_polls s) []) in *.
    unfold step. destruct Hpc as [Hpc|Hpc]; rewrite Hpc.
    + rewrite Hr, (Hstop (S (w_reads s)) ltac:(lia)). simpl.
      split; [auto|]. split; [exact Hp|]. split; [lia|].
      intros ms. rewrite Htrace. simpl. rewrite elem_of_app.
      intros [H|H]; [exact H | exfalso; exact (Hnowait _ H)].
    + rewrite Hpc. split; [auto|]. split; [exact Hp|]. split; [lia|].
      intros ms. rewrite Htrace. simpl. rewrite elem_of_app.
      intros [H|H]; [exact H | exfalso; exact (Hnowait _ H)].
  - assert (E1 : step P fmt o s = s) by (unfold step; rewrite Epc; reflexivity).
    rewrite !E1, Epc. auto 6.
  - assert (E1 : step P fmt o s = s) by (unfold step; rewrite Epc; reflexivity).
    rewrite !E1, Epc. auto 6.
Qed.

End WorkerExit.

(** What the stream and the device answer changes nothing in a run when
    only the results of [write_fun] differ. *)
Lemma worker_ignores_write_results (P : Platform) (fmt : SampleFormat)
    (o1 o2 : Oracle) (fuel : nat) :
  (forall k, active_at o1 k = active_at o2 k) ->
  (forall k, wait_at o1 k = wait_at o2 k) ->
  (forall k, queue_at o1 k = queue_at o2 k) ->
  forall s, worker P fmt o1 fuel s = worker P fmt o2 fuel s.
Proof.
  intros Ha Hw Hq. induction fuel as [|fuel IH]; intros s; simpl; [reflexivity|].
  rewrite IH. f_equal.
  unfold step, run_body. rewrite Ha, Hw, Hq. reflexivity.
Qed.

(** ** The device sample block *)

Lemma writes_in_bounds_iff (blk : sample_block) (count : nat) :
  writes_in_bounds blk count
  <-> (count = 0%nat \/ 4 * Z.of_nat count <= blk_bytes blk).
Proof.
  unfold writes_in_bounds. split.
  - intros H. destruct count as [|c]; [left; reflexivity|right].
    destruct (H c 0 ltac:(lia)) as [blk' Hs].
    apply store_sample_inv in Hs as [Hb _]. lia.
  - intros [->|Hc] i v Hi; [lia|].
    rewrite store_sample_Some by lia. eauto.
Qed.

(** After an [init] that returns, [bd] describes a fresh block of
    [num_samples * MAX_NUM_CHANNELS * SAMPLE_SIZE] bytes with
    [num_samples = 50 * SAMPLES_PER_BUFFER]. *)
Lemma init_allocates (P : Platform) (fmt : SampleFormat) (env : InitEnv)
    (st st1 : SonosLLAPlayer) (tr1 : list event) :
  init P fmt env st = (Returns tt, st1, tr1) ->
  bd_num_samples st1 = 50 * SAMPLES_PER_BUFFER P
  /\ bd_samples st1
     = Some (fresh_block (50 * SAMPLES_PER_BUFFER P * MAX_NUM_CHANNELS P * SAMPLE_SIZE P)).
Proof.
  unfold init, bind, modify, emit, throw, ret.
  destruct (open_output_ret env <? 0), (malloc_succeeds env),
    (platform_init_ret env <? 0); simpl; intros H; try discriminate H.
  injection H as <- _. split; reflexivity.
Qed.

(** The buffer the conversion reads: the retrieved bytes, scaled when a
    chunk was retrieved. *)
Lemma iteration_body_buffer (P : Platform) (fmt : SampleFormat) (time : Z)
    (q : queue_response) (write_ret : Z) (st : SonosLLAPlayer) :
  let needed := Z.to_nat (bd_num_samples st * frameSize fmt) in
  let r := getPlayerChunkOrSilence q needed in
  let retrieved := r.2 ++ drop needed (resize_up (buffer_ st) needed) in
  buffer_ (iteration_body P fmt time q write_ret st).1.2
  = (if r.1 then adjustVolume P retrieved (bd_num_samples st) else retrieved).
Proof.
  intros needed r retrieved. rewrite iteration_body_unfold.
  destruct (bd_samples st) as [blk|];
    [ destruct (swizzle _ _ _ _ _)
    | destruct (Z.to_nat (bd_num_samples st * channels fmt)) ]; reflexivity.
Qed.

(** How an iteration ends on an allocated block, in terms of the loop. *)
Lemma iteration_body_converts (P : Platform) (fmt : SampleFormat) (time : Z)
    (q : queue_response) (write_ret : Z) (st : SonosLLAPlayer) (blk : sample_block) :
  bd_samples st = Some blk ->
  let out := iteration_body P fmt time q write_ret st in
  let count := Z.to_nat (bd_num_samples st * channels fmt) in
  match swizzle (host_order P) (buffer_ out.1.2) (Z.to_nat (bits fmt / 8)) count blk with
  | Some blk' => out.1.1 = Returns tt /\ bd_samples out.1.2 = Some blk'
  | None => out.1.1 = Undefined
  end.
Proof.
  intros Hblk out count. subst out count.
  rewrite iteration_body_buffer.
  rewrite iteration_body_unfold, Hblk.
  destruct (swizzle _ _ _ _ _) as [blk'|] eqn:E; simpl.
  - split; reflexivity.
  - reflexivity.
Qed.

(** An iteration leaves defined behaviour only in its conversion: by a
    store through a null [bd.samples], or by an access outside [buffer_]
    or outside the block. *)
Lemma iteration_undefined_in_conversion (P : Platform) (fmt : SampleFormat) (time : Z)
    (q : queue_response) (write_ret : Z) (st : SonosLLAPlayer) :
  let out := iteration_body P fmt time q write_ret st in
  let count := Z.to_nat (bd_num_samples st * channels fmt) in
  out.1.1 = Undefined
  <-> (bd_samples st = None /\ (0 < count)%nat)
      \/ (exists blk, bd_samples st = Some blk
            /\ swizzle (host_order P) (buffer_ out.1.2) (Z.to_nat (bits fmt / 8)) count blk
               = None).
Proof.
  intros out count. subst out count.
  destruct (bd_samples st) as [blk|] eqn:Hblk.
  - pose proof (iteration_body_converts P fmt time q write_ret st blk Hblk) as Hconv.
    simpl in Hconv.
    destruct (swizzle _ _ _ _ _) as [blk'|] eqn:E.
    + destruct Hconv as [Hret _]. rewrite Hret. split; [intros H; discriminate H|].
      intros [[H _]|(b & H & Hs)]; [discriminate H|].
      injection H as <-. rewrite E in Hs. discriminate Hs.
    + split; [|intros _; exact Hconv].
      intros _. right. exists blk. split; [reflexivity | exact E].
  - rewrite iteration_body_unfold, Hblk.
    destruct (Z.to_nat (bd_num_samples st * channels fmt)) as [|c]; simpl.
    + split; [intros H; discriminate H|].
      intros [[_ H]|(b & H & _)]; [lia | discriminate H].
    + split; [|reflexivity]. intros _. left. split; [reflexivity | lia].
Qed.

(** C9, as amended: after [init] the block [bd.samples] has
    [num_samples * MAX_NUM_CHANNELS * SAMPLE_SIZE] bytes; the conversion
    loop stores into the cells [0 .. numFrames * channels - 1] and no
    other; these stores are all inside the block exactly when there are
    none or [4 * numFrames * channels] is at most the size of the block,
    and in particular whenever the channel count is at most
    [MAX_NUM_CHANNELS] and [SAMPLE_SIZE] is at least 4; nothing checks
    this at run time: when a store would leave the block the iteration is
    outside defined behaviour. *)
Theorem conversion_writes_within_block (P : Platform) (fmt : SampleFormat)
    (env : InitEnv) (st st1 : SonosLLAPlayer) (tr1 : list event) :
  init P fmt env st = (Returns tt, st1, tr1) ->
  let n := 50 * SAMPLES_PER_BUFFER P in
  let count := Z.to_nat (n * channels fmt) in
  let blk := fresh_block (n * MAX_NUM_CHANNELS P * SAMPLE_SIZE P) in
  bd_num_samples st1 = n
  /\ bd_samples st1 = Some blk
  /\ (writes_in_bounds blk count
      <-> (count = 0%nat
           \/ 4 * Z.of_nat count <= n * MAX_NUM_CHANNELS P * SAMPLE_SIZE P))
  /\ (0 <= n -> 0 <= channels fmt <= MAX_NUM_CHANNELS P -> 4 <= SAMPLE_SIZE P ->
      writes_in_bounds blk count)
  /\ (forall time q write_ret,
        ~ writes_in_bounds blk count ->
        (iteration_body P fmt time q write_ret st1).1.1 = Undefined)
  /\ (forall time q write_ret st2 tr2,
        iteration_body P fmt time q write_ret st1 = (Returns tt, st2, tr2) ->
        exists blk2,
          bd_samples st2 = Some blk2
          /\ blk_bytes blk2 = blk_bytes blk
          /\ forall j, is_Some (blk_cells blk2 !! j) <-> (j < count)%nat).
Proof.
  intros Hinit n count blk.
  destruct (init_allocates P fmt env st st1 tr1 Hinit) as [Hn Hblk].
  fold n in Hn, Hblk. fold blk in Hblk.
  split; [exact Hn|]. split; [exact Hblk|].
  split; [apply writes_in_bounds_iff|].
  split.
  { intros Hn0 Hch Hss. apply writes_in_bounds_iff. right. simpl.
    subst count. clearbody n.
    assert (H1 : 0 <= n * channels fmt) by (apply Z.mul_nonneg_nonneg; lia).
    assert (H2 : n * channels fmt <= n * MAX_NUM_CHANNELS P)
      by (apply Z.mul_le_mono_nonneg_l; lia).
    assert (H3 : (n * MAX_NUM_CHANNELS P) * 4 <= (n * MAX_NUM_CHANNELS P) * SAMPLE_SIZE P)
      by (apply Z.mul_le_mono_nonneg_l; lia).
    rewrite Z2Nat.id by exact H1. lia. }
  split.
  { intros time q write_ret Hout.
    pose proof (iteration_body_converts P fmt time q write_ret st1 blk Hblk) as Hc.
    simpl in Hc. rewrite Hn in Hc. fold count in Hc.
    destruct (swizzle _ _ _ _ _) as [blk'|] eqn:E; [|exact Hc].
    exfalso. apply Hout, writes_in_bounds_iff.
    apply swizzle_from_inv in E as (_ & Hcap & _). simpl in Hcap. exact Hcap. }
  intros time q write_ret st2 tr2 Hrun.
  pose proof (iteration_body_converts P fmt time q write_ret st1 blk Hblk) as Hc.
  simpl in Hc. rewrite Hn in Hc. fold count in Hc. rewrite Hrun in Hc. simpl in Hc.
  destruct (swizzle _ _ _ _ _) as [blk'|] eqn:E; [|discriminate Hc].
  destruct Hc as [_ Hs]. exists blk'. split; [exact Hs|].
  apply swizzle_from_inv in E as (Hbytes & _ & Hin & Hout).
  split; [exact Hbytes|].
  intros j. split.
  - intros Hj. destruct (decide (j < count)%nat) as [Hlt|Hge]; [exact Hlt|].
    rewrite Hout in Hj by lia. simpl in Hj.
    rewrite lookup_empty in Hj. destruct Hj as [x Hx]. discriminate Hx.
  - intros Hj. destruct (Hin j ltac:(lia)) as (v & _ & Hv). eauto.
Qed.

Lemma conversion_writes_within_block_witness :
  let P := alsa_platform 0 in
  let n := 50 * SAMPLES_PER_BUFFER P in
  let count := Z.to_nat (n * channels cd_stereo) in
  let blk := fresh_block (n * MAX_NUM_CHANNELS P * SAMPLE_SIZE P) in
  let st1 := (init P cd_stereo env_ok constructed).1.2 in
  bd_num_samples st1 = n
  /\ bd_samples st1 = Some blk
  /\ (writes_in_bounds blk count
      <-> (count = 0%nat
           \/ 4 * Z.of_nat count <= n * MAX_NUM_CHANNELS P * SAMPLE_SIZE P))
  /\ (0 <= n -> 0 <= channels cd_stereo <= MAX_NUM_CHANNELS P -> 4 <= SAMPLE_SIZE P ->
      writes_in_bounds blk count)
  /\ (forall time q write_ret,
        ~ writes_in_bounds blk count ->
        (iteration_body P cd_stereo time q write_ret st1).1.1 = Undefined)
  /\ (forall time q write_ret st2 tr2,
        iteration_body P cd_stereo time q write_ret st1 = (Returns tt, st2, tr2) ->
        exists blk2,
          bd_samples st2 = Some blk2
          /\ blk_bytes blk2 = blk_bytes blk
          /\ forall j, is_Some (blk_cells blk2 !! j) <-> (j < count)%nat).
Proof.
  exact (conversion_writes_within_block (alsa_platform 0) cd_stereo env_ok constructed
           _ _ eq_refl).
Defined.

(** C9, as stated, fails: in a build with [SAMPLE_SIZE = 2] and
    [MAX_NUM_CHANNELS = 8] a stereo stream has every store of the loop
    inside the block (100 words, 400 bytes, in a block of 800 bytes) and
    the iteration runs to its end, although [SAMPLE_SIZE] is below 4. *)
Lemma two_byte_sample_size_stays_in_bounds :
  let P := two_byte_platform in
  let n := 50 * SAMPLES_PER_BUFFER P in
  let st1 := (init P cd_stereo env_ok constructed).1.2 in
  (init P cd_stereo env_ok constructed).1.1 = Returns tt
  /\ writes_in_bounds (fresh_block (n * MAX_NUM_CHANNELS P * SAMPLE_SIZE P))
       (Z.to_nat (n * channels cd_stereo))
  /\ (iteration_body P cd_stereo 1 NotReady 0 st1).1.1 = Returns tt
  /\ ~ (channels cd_stereo <= MAX_NUM_CHANNELS P /\ 4 <= SAMPLE_SIZE P).
Proof.
  split; [reflexivity|].
  split; [apply writes_in_bounds_iff; right; vm_compute; discriminate|].
  split; [vm_compute; reflexivity|].
  intros [_ H]. vm_compute in H. apply H. reflexivity.
Qed.

(** No guard: with three channels in a build made for two, the same
    iteration leaves defined behaviour. *)
Example too_many_channels_is_undefined :
  let P := {| SAMPLES_PER_BUFFER := 1; MAX_NUM_CHANNELS := 2; SAMPLE_SIZE := 4;
              SONOS_ARCH_ATTR_USES_LLA := false; host_order := LittleEndian;
              snap_exception_code := 0; adjustVolume := fun buf _ => buf |} in
  let fmt := {| rate := 48000; bits := 16; channels := 3 |} in
  (iteration_body P fmt 1 NotReady 0 (init P fmt env_ok constructed).1.2).1.1 = Undefined.
Proof. vm_compute. reflexivity. Qed.

(** ** Device enumeration *)

(** C10: whatever the parameter string, [pcm_list] returns exactly one
    device, with index 0 and the name and description the build flag
    selects; the parameter never affects the result. *)
Theorem pcm_list_constant (P : Platform) (parameter other : string) :
  pcm_list P parameter = pcm_list P other
  /\ length (pcm_list P parameter) = 1%nat
  /\ pcm_list P parameter
     = [ {| idx := 0;
            name := if SONOS_ARCH_ATTR_USES_LLA P then "lla" else "alsa";
            description := if SONOS_ARCH_ATTR_USES_LLA P
                           then kLLADescription else kAlsaDescription |} ].
Proof.
  unfold pcm_list. destruct (SONOS_ARCH_ATTR_USES_LLA P); repeat split; reflexivity.
Qed.

Example pcm_list_alsa :
  pcm_list (alsa_platform 0) "default"
  = [ {| idx := 0; name := "alsa"; description := "Sonos Alsa output" |} ].
Proof. reflexivity. Qed.

(** ** The staleness bound *)

(** C4: with the staleness bound set to [B], a chunk whose timestamp lags
    the stream clock by [L] is transmitted if and only if [L <= B], so a
    chunk with [L = B] is transmitted; otherwise it is dropped, the
    session is unchanged and the caller sees a drop, never a failure. *)
Theorem staleness_bound_transmits_iff (B clock timestamp : Z) (s : StreamSession) :
  let s' := setBufferMs B s in
  let L := lag clock timestamp in
  ((send_chunk clock timestamp s').2 = Sent <-> L <= B)
  /\ ((send_chunk clock timestamp s').2 = Dropped <-> B < L)
  /\ (send_chunk clock timestamp s').2 <> SendFailed
  /\ (L = B -> (send_chunk clock timestamp s').2 = Sent)
  /\ (L <= B ->
      transmitted (send_chunk clock timestamp s').1 = transmitted s ++ [timestamp])
  /\ (B < L -> (send_chunk clock timestamp s').1 = s').
Proof.
  intros s' L. subst s' L. unfold send_chunk, setBufferMs. simpl.
  destruct (Z.ltb_spec B (lag clock timestamp)) as [Hlt|Hge]; simpl.
  - repeat split; try discriminate; try lia; try (intros; reflexivity).
    all: intros H; try discriminate H; lia.
  - repeat split; try discriminate; try lia; try (intros; reflexivity).
    all: intros H; try discriminate H; lia.
Qed.

(** The scenario of the specification: clock at 1050 ms, bound 200 ms. A
    chunk stamped 1000 ms (lag 50) is sent, one stamped 700 ms (lag 350)
    is dropped, and one stamped 850 ms (lag 200) is still sent. *)
Example staleness_scenario :
  let s := setBufferMs 200 {| bufferMs_ := 0; transmitted := [] |} in
  (send_chunk 1050 1000 s).2 = Sent
  /\ (send_chunk 1050 700 s).2 = Dropped
  /\ (send_chunk 1050 850 s).2 = Sent.
Proof. repeat split; reflexivity. Qed.

(** ** The theorems at work on a concrete player *)

(** C3, as stated, fails: the iteration does not always complete. On the
    started player an underrun of an 8-bit mono stream zeroes the 200
    bytes asked for, but the conversion reads sample [i] at byte [2 * i]
    and leaves [buffer_]: the iteration ends outside defined behaviour
    after the log line, and nothing is handed to [write_fun]. The same
    happens, for 16-bit samples, when the stream has more channels than
    the block was allocated for. *)
Lemma eight_bit_underrun_is_not_written :
  let out := iteration_body (alsa_platform 0) phone_mono 25 NotReady 0 started_player in
  let P2 := {| SAMPLES_PER_BUFFER := 1; MAX_NUM_CHANNELS := 2; SAMPLE_SIZE := 4;
               SONOS_ARCH_ATTR_USES_LLA := false; host_order := LittleEndian;
               snap_exception_code := 0; adjustVolume := fun buf _ => buf |} in
  let three := {| rate := 48000; bits := 16; channels := 3 |} in
  let out2 := iteration_body P2 three 1 NotReady 0 (start P2 three env_ok constructed).1.2 in
  (getPlayerChunkOrSilence NotReady
     (Z.to_nat (bd_num_samples started_player * frameSize phone_mono))).1 = false
  /\ buffer_ out.1.2 = replicate 200 Byte.x00
  /\ out.1.1 = Undefined
  /\ out.2 = [GetPlayerChunkOrSilence 25 200; LogSilence]
  /\ (start P2 three env_ok constructed).1.1 = Returns tt
  /\ out2.1.1 = Undefined
  /\ out2.2 = [GetPlayerChunkOrSilence 1 50; LogSilence].
Proof. vm_compute. repeat split; reflexivity. Qed.

(** C3 on the started player: the stream has nothing in time, the
    iteration returns, and the 400 samples handed to the device are 0. *)
Lemma underrun_plays_silence_witness :
  let out := iteration_body (alsa_platform 0) cd_stereo 4 NotReady (-1) started_player in
  exists blk',
    out.1.1 = Returns tt
    /\ out.2 = [GetPlayerChunkOrSilence 4 (bd_num_samples started_player); LogSilence;
                WriteFun (out_instance started_player) (blk_cells blk')
                  (bd_num_samples started_player)]
    /\ samples_written (Z.to_nat (bd_num_samples started_player * channels cd_stereo)) blk'
       = replicate (Z.to_nat (bd_num_samples started_player * channels cd_stereo)) (Some 0).
Proof.
  destruct (underrun_plays_silence (alsa_platform 0) cd_stereo 4 (-1) started_player)
    as (_ & _ & _ & _ & _ & _ & H).
  apply (H (fresh_block 6400)).
  - reflexivity.
  - vm_compute. split; discriminate.
  - vm_compute. discriminate.
  - vm_compute. discriminate.
  - vm_compute. discriminate.
Defined.


(** A whole run: [active_] reads true four times. The first wait times
    out, the second succeeds; the stream has no chunk, so silence is
    written; the write fails; the next iteration runs all the same; then
    [active_] reads false in the inner loop, the iteration in progress is
    finished without waiting, and the worker returns. *)
Example worker_run :
  let s := worker (alsa_platform 0) cd_stereo (stop_after 4) 6 (worker_entry started_player) in
  w_pc s = Exited
  /\ call_kind <$> w_trace s
     = ["waitForChunk"; "log waiting"; "waitForChunk";
        "getPlayerChunkOrSilence"; "log silence"; "write_fun";
        "getPlayerChunkOrSilence"; "log silence"; "write_fun"]%string
  /\ filter (fun e => call_kind e = "getPlayerChunkOrSilence"%string) (w_trace s)
     = [GetPlayerChunkOrSilence 4 200; GetPlayerChunkOrSilence 4 200].
Proof. vm_compute. repeat split; reflexivity. Qed.

(** * Further properties of the code *)

(** ** Counting calls *)

Lemma count_calls_app (kind : event -> bool) (tr1 tr2 : list event) :
  count_calls kind (tr1 ++ tr2) = (count_calls kind tr1 + count_calls kind tr2)%nat.
Proof. unfold count_calls. rewrite filter_app, length_app. reflexivity. Qed.

Lemma count_calls_cons (kind : event -> bool) (e : event) (tr : list event) :
  count_calls kind (e :: tr)
  = ((if kind e then 1 else 0) + count_calls kind tr)%nat.
Proof.
  unfold count_calls. rewrite filter_cons.
  destruct (kind e) eqn:E; destruct (decide _) as [H|H]; simpl;
    try reflexivity; congruence.
Qed.

Lemma count_calls_nil (kind : event -> bool) : count_calls kind [] = 0%nat.
Proof. reflexivity. Qed.

(** ** [init] *)

(** What [init] leaves in [bd], however it ends. *)
Lemma init_leaves_samples (P : Platform) (fmt : SampleFormat) (env : InitEnv)
    (st : SonosLLAPlayer) :
  bd_num_samples (init P fmt env st).1.2 = 50 * SAMPLES_PER_BUFFER P
  /\ bd_samples (init P fmt env st).1.2
     = if open_output_ret env <? 0 then bd_samples st
       else if malloc_succeeds env
            then Some (fresh_block
                         (50 * SAMPLES_PER_BUFFER P * MAX_NUM_CHANNELS P * SAMPLE_SIZE P))
            else None.
Proof.
  unfold init, bind, modify, emit, throw, ret.
  destruct (open_output_ret env <? 0), (malloc_succeeds env),
    (platform_init_ret env <? 0); simpl; split; reflexivity.
Qed.

(** X1: [init] makes its three calls in the order open, malloc, platform_init
    and stops at the first that fails: it returns exactly when all three
    succeed; every exception carries the code of a [SnapException] built
    from a message; after a failed open nothing is allocated and
    [bd.samples] is what it was; after a failed malloc [platform_init] is
    not called and [bd.samples] is null; otherwise [bd.samples] is a fresh
    block of [50 * SAMPLES_PER_BUFFER * MAX_NUM_CHANNELS * SAMPLE_SIZE]
    bytes, whatever it pointed to before. [init] itself never frees a
    block and never closes an instance. *)
Theorem init_stops_at_first_failure (P : Platform) (fmt : SampleFormat)
    (env : InitEnv) (st : SonosLLAPlayer) :
  let out := init P fmt env st in
  let n := 50 * SAMPLES_PER_BUFFER P in
  let bytes := n * MAX_NUM_CHANNELS P * SAMPLE_SIZE P in
  let opened := OpenOutput n (bits fmt / 8) (channels fmt) in
  (out.1.1 = Returns tt
   <-> 0 <= open_output_ret env /\ malloc_succeeds env = true
       /\ 0 <= platform_init_ret env)
  /\ (forall code, out.1.1 = Throws code -> code = snap_exception_code P)
  /\ out.1.1 <> Undefined
  /\ (open_output_ret env < 0 ->
      out.2 = [opened] /\ bd_samples out.1.2 = bd_samples st
      /\ in_instance out.1.2 = in_instance st)
  /\ (0 <= open_output_ret env -> malloc_succeeds env = false ->
      out.2 = [opened; Malloc bytes] /\ bd_samples out.1.2 = None
      /\ out_instance out.1.2 = open_output_token env)
  /\ (0 <= open_output_ret env -> malloc_succeeds env = true ->
      out.2 = [opened; Malloc bytes; PlatformInit]
      /\ bd_samples out.1.2 = Some (fresh_block bytes)
      /\ in_instance out.1.2 = platform_init_in_token env
      /\ out_instance out.1.2 = platform_init_out_token env)
  /\ bd_num_samples out.1.2 = n
  /\ m_num_samples out.1.2 = n
  /\ count_calls is_free out.2 = 0%nat
  /\ count_calls is_close out.2 = 0%nat.
Proof.
  intros out n bytes opened. subst out n bytes opened.
  unfold init, bind, modify, emit, throw, ret.
  destruct (Z.ltb_spec (open_output_ret env) 0) as [Ho|Ho];
    destruct (malloc_succeeds env) eqn:Em;
    destruct (Z.ltb_spec (platform_init_ret env) 0) as [Hp|Hp]; simpl;
    repeat split; intros; try discriminate; try lia; try congruence;
    try (exfalso; lia); try reflexivity;
    match goal with
    | H : _ /\ _ |- _ => destruct H as (? & ? & ?); try lia; try discriminate
    | _ => idtac
    end.
Qed.

(** ** [stop] and the destructor *)

(** [stop] in one piece: it returns, clears [active_], leaves
    [bd.samples] null, and makes its calls in a fixed order. *)
Lemma stop_unfold (st : SonosLLAPlayer) :
  stop st =
  (Returns tt, set_samples None (set_active false st),
   [PlayerStop; PlatformExit]
   ++ match in_instance st with Some t => [CloseFun t] | None => [] end
   ++ match out_instance st with Some t => [CloseFun t] | None => [] end
   ++ match bd_samples st with Some _ => [Free] | None => [] end).
Proof.
  unfold stop, Player_stop, uninit, bind, get, modify, emit, ret.
  destruct st as [a b m [i|] [o|] [blk|] n]; reflexivity.
Qed.

(** The number of non-null device tokens of a player. *)
Lemma stop_counts (st : SonosLLAPlayer) :
  count_calls is_free (stop st).2 = held (bd_samples st)
  /\ count_calls is_close (stop st).2
     = (held (in_instance st) + held (out_instance st))%nat.
Proof.
  rewrite stop_unfold.
  destruct st as [a b m [i|] [o|] [blk|] n]; simpl; split; reflexivity.
Qed.

Lemma stop_times_succ (n : nat) (st : SonosLLAPlayer) :
  stop_times (S n) st =
  match stop_times n (stop st).1.2 with
  | (o, st2, tr2) => (o, st2, (stop st).2 ++ tr2)
  end.
Proof.
  simpl. unfold bind at 1. rewrite stop_unfold. simpl. reflexivity.
Qed.

(** X3: Any number of [stop]s in a row (an explicit [stop], then the one of
    the destructor, ...) frees the block exactly once if there is one and
    never otherwise, and leaves the player as a single [stop] does; but
    every one of them calls [close_fun] on each non-null token. *)
Theorem repeated_stop_frees_once (n : nat) (st : SonosLLAPlayer) :
  (stop_times (S n) st).1.1 = Returns tt
  /\ (stop_times (S n) st).1.2 = (stop st).1.2
  /\ count_calls is_free (stop_times (S n) st).2
     = held (bd_samples st)
  /\ count_calls is_close (stop_times (S n) st).2
     = (S n * (held (in_instance st) + held (out_instance st)))%nat.
Proof.
  revert st. induction n as [|n IH]; intros st.
  - rewrite stop_times_succ. simpl. rewrite app_nil_r.
    destruct (stop_counts st) as [Hf Hc].
    rewrite Hf, Hc. repeat split; try reflexivity. lia.
  - rewrite stop_times_succ.
    specialize (IH (stop st).1.2).
    destruct (stop_times (S n) (stop st).1.2) as [[o2 st2] tr2].
    simpl in IH. destruct IH as (Ho & Hst & Hf & Hc). simpl.
    destruct (stop_counts st) as [Hf1 Hc1].
    rewrite !count_calls_app, Hf, Hc, Hf1, Hc1.
    rewrite stop_unfold in *. simpl in *.
    split; [exact Ho|]. split.
    { rewrite Hst. rewrite stop_unfold. reflexivity. }
    split; [destruct (bd_samples st); reflexivity|].
    destruct (in_instance st), (out_instance st); simpl; lia.
Qed.

(** X2: However [start] ends - it returns, it swallows a busy device, or it
    throws - one [stop] afterwards (the destructor's at the latest) frees
    the block exactly when [init] got one from [malloc], frees it once,
    and leaves [bd.samples] null and [active_] false. *)
Theorem stop_after_start_frees_what_init_allocated (P : Platform)
    (fmt : SampleFormat) (env : InitEnv) (st : SonosLLAPlayer) :
  bd_samples st = None ->
  let started := (start P fmt env st).1.2 in
  (destructor started).1.1 = Returns tt
  /\ count_calls is_free (destructor started).2
     = (if (0 <=? open_output_ret env) && malloc_succeeds env then 1%nat else 0%nat)
  /\ bd_samples (destructor started).1.2 = None
  /\ active_ (destructor started).1.2 = false.
Proof.
  intros Hnone started. subst started. unfold destructor.
  rewrite stop_unfold. simpl.
  split; [reflexivity|]. split; [|split; reflexivity].
  pose proof (stop_counts (start P fmt env st).1.2) as [Hf _].
  rewrite stop_unfold in Hf. simpl in Hf. rewrite Hf. clear Hf.
  rewrite start_unfold.
  destruct (init_leaves_samples P fmt env st) as [_ Hs].
  destruct (init P fmt env st) as [[o1 st1] tr1] eqn:Ei. simpl in *.
  assert (Hh : held (bd_samples st1)
    = if (0 <=? open_output_ret env) && malloc_succeeds env then 1%nat else 0%nat).
  { rewrite Hs, Hnone.
    destruct (Z.ltb_spec (open_output_ret env) 0), (Z.leb_spec 0 (open_output_ret env));
      try lia; simpl; [reflexivity|].
    destruct (malloc_succeeds env); reflexivity. }
  destruct o1 as [[]|code|]; [| destruct (code =? - EBUSY) |]; simpl; exact Hh.
Qed.

Lemma stop_after_start_frees_what_init_allocated_witness :
  let started := (start (alsa_platform 0) cd_stereo env_ok constructed).1.2 in
  (destructor started).1.1 = Returns tt
  /\ count_calls is_free (destructor started).2
     = (if (0 <=? open_output_ret env_ok) && malloc_succeeds env_ok then 1%nat else 0%nat)
  /\ bd_samples (destructor started).1.2 = None
  /\ active_ (destructor started).1.2 = false.
Proof.
  exact (stop_after_start_frees_what_init_allocated (alsa_platform 0) cd_stereo
           env_ok constructed eq_refl).
Defined.

(** ** The conversion for every sample width *)

Lemma read_bytes_Some (buf src : list byte) (off len : nat) :
  read_bytes buf off len = Some src ->
  (off + len <= length buf)%nat /\ src = take len (drop off buf) /\ length src = len.
Proof.
  unfold read_bytes. destruct (decide _) as [H|H]; intros E; [|discriminate E].
  injection E as <-. split; [exact H|]. split; [reflexivity|].
  rewrite length_take, length_drop. lia.
Qed.

Lemma read_bytes_is_Some (buf : list byte) (off len : nat) :
  is_Some (read_bytes buf off len) <-> (off + len <= length buf)%nat.
Proof.
  unfold read_bytes. destruct (decide _) as [H|H]; split; intros E; eauto; try lia.
  destruct E as [x E]. discriminate E.
Qed.

(** The word built from up to four bytes copied into a zeroed
    [temp_sample] is their little-endian value, on either byte order. *)
Lemma le32_to_cpu_temp (host : byte_order) (src : list byte) :
  (length src <= 4)%nat ->
  le32_to_cpu host (load_u32 host (src ++ replicate (4 - length src) Byte.x00))
  = le_value src.
Proof.
  intros Hlen.
  destruct src as [|b0 [|b1 [|b2 [|b3 [|b4 src]]]]]; simpl in Hlen; try lia;
    cbn [length app replicate Nat.sub];
    rewrite le32_to_cpu_load; cbn [le_value];
    change (byte_val Byte.x00) with 0; lia.
Qed.

(** The value of one converted sample, on either byte order. *)
Lemma swizzle_sample_value (host : byte_order) (buf : list byte)
    (bytes_per_sample i : nat) :
  swizzle_sample host buf bytes_per_sample i
  = if decide (bytes_per_sample <= 4)%nat
    then (fun src => to_int32 (le_value src))
           <$> read_bytes buf (2 * i) bytes_per_sample
    else None.
Proof.
  unfold swizzle_sample, temp_sample.
  destruct (decide _) as [Hb|Hb]; [|reflexivity].
  destruct (read_bytes buf (2 * i) bytes_per_sample) as [src|] eqn:E; [|reflexivity].
  apply read_bytes_Some in E as (_ & _ & Hlen).
  cbn -[load_u32 le32_to_cpu to_int32 replicate le_value].
  rewrite <- Hlen at 1. rewrite le32_to_cpu_temp by lia. reflexivity.
Qed.

(** X10: What the loop stores in cell [i], for every sample width: the
    little-endian value of the [bytes_per_sample] bytes of [buffer_] that
    start at byte [2 * i], as an [int32_t]; there is no value when the
    width exceeds 4 or the bytes leave the vector. The byte order of the
    machine plays no part, in the sample or in the whole loop. *)
Theorem swizzle_independent_of_byte_order (host : byte_order) (buf : list byte)
    (bytes_per_sample : nat) :
  (forall i,
     swizzle_sample host buf bytes_per_sample i
     = if decide (bytes_per_sample <= 4)%nat
       then (fun src => to_int32 (le_value src))
              <$> read_bytes buf (2 * i) bytes_per_sample
       else None)
  /\ (forall n blk,
        swizzle host buf bytes_per_sample n blk
        = swizzle LittleEndian buf bytes_per_sample n blk).
Proof.
  split; [intros i; apply swizzle_sample_value|].
  intros n blk. unfold swizzle. generalize 0%nat as i. revert blk.
  induction n as [|n IH]; intros blk i; simpl; [reflexivity|].
  rewrite (swizzle_sample_value host), <- (swizzle_sample_value LittleEndian).
  destruct (swizzle_sample LittleEndian buf bytes_per_sample i) as [v|];
    simpl; [|reflexivity].
  destruct (store_sample blk i v); simpl; [apply IH | reflexivity].
Qed.

(** *** 32-bit samples *)

Lemma encode32le_cons (x : Z) (xs : list Z) :
  encode32le (x :: xs)
  = byte_of_Z x :: byte_of_Z (x / 2 ^ 8) :: byte_of_Z (x / 2 ^ 16)
      :: byte_of_Z (x / 2 ^ 24) :: encode32le xs.
Proof. reflexivity. Qed.

Lemma encode32le_drop (xs : list Z) (rest : list byte) (k : nat) :
  (k <= length xs)%nat ->
  drop (4 * k) (encode32le xs ++ rest) = encode32le (drop k xs) ++ rest.
Proof.
  revert xs. induction k as [|k IH]; intros xs Hk; [reflexivity|].
  destruct xs as [|x xs]; [simpl in Hk; lia|].
  replace (4 * S k)%nat with (S (S (S (S (4 * k))))) by lia.
  rewrite encode32le_cons. simpl. apply IH. simpl in Hk. lia.
Qed.

Lemma encode32le_length (xs : list Z) :
  length (encode32le xs) = (4 * length xs)%nat.
Proof.
  induction xs as [|x xs IH]; [reflexivity|].
  rewrite encode32le_cons. simpl. rewrite IH. lia.
Qed.

(** The four bytes of a sample, read back as an unsigned number. *)
Lemma le_value_word (x : Z) :
  le_value [byte_of_Z x; byte_of_Z (x / 2 ^ 8); byte_of_Z (x / 2 ^ 16);
            byte_of_Z (x / 2 ^ 24)] = x mod 2 ^ 32.
Proof.
  cbn [le_value]. rewrite !byte_val_of_Z.
  change (2 ^ 8) with 256. change (2 ^ 16) with (256 * 256).
  change (2 ^ 24) with (256 * 256 * 256).
  rewrite <- !Z.div_div by lia.
  set (q1 := x / 256). set (q2 := q1 / 256). set (q3 := q2 / 256).
  pose proof (Z.div_mod x 256 ltac:(lia)) as E0. fold q1 in E0.
  pose proof (Z.div_mod q1 256 ltac:(lia)) as E1. fold q2 in E1.
  pose proof (Z.div_mod q2 256 ltac:(lia)) as E2. fold q3 in E2.
  pose proof (Z.div_mod q3 256 ltac:(lia)) as E3.
  pose proof (Z.mod_pos_bound x 256 ltac:(lia)).
  pose proof (Z.mod_pos_bound q1 256 ltac:(lia)).
  pose proof (Z.mod_pos_bound q2 256 ltac:(lia)).
  pose proof (Z.mod_pos_bound q3 256 ltac:(lia)).
  apply (Z.mod_unique_pos _ _ (q3 / 256)); [|lia].
  change (2 ^ 32) with 4294967296. lia.
Qed.

(** The upper half of one sample followed by the lower half of the next,
    read back as an unsigned number. *)
Lemma le_value_straddle (x y : Z) :
  le_value [byte_of_Z (x / 2 ^ 16); byte_of_Z (x / 2 ^ 24); byte_of_Z y;
            byte_of_Z (y / 2 ^ 8)]
  = (x / 2 ^ 16) mod 2 ^ 16 + (y mod 2 ^ 16) * 2 ^ 16.
Proof.
  cbn [le_value]. rewrite !byte_val_of_Z.
  change (2 ^ 24) with (2 ^ 16 * 256). rewrite <- (Z.div_div x) by lia.
  pose proof (low_word (x / 2 ^ 16)) as Hx. pose proof (low_word y) as Hy.
  change (2 ^ 8) with 256 in *. change (2 ^ 16) with 65536 in *. lia.
Qed.

Lemma to_int32_wrap (x : Z) :
  - 2 ^ 31 <= x < 2 ^ 31 -> to_int32 (x mod 2 ^ 32) = x.
Proof.
  intros Hx. unfold to_int32.
  rewrite Zplus_mod_idemp_l. rewrite Z.mod_small; lia.
Qed.

(** X12: For 32-bit samples the loop still steps through [buffer_] two bytes
    at a time: cell [2 k] receives sample [k] itself, with its sign, but
    cell [2 k + 1] is put together from the upper half of sample [k] and
    the lower half of sample [k + 1]. *)
Theorem swizzle_32bit_reads_at_half_stride (host : byte_order) (xs : list Z)
    (rest : list byte) (k : nat) (x : Z) :
  xs !! k = Some x ->
  - 2 ^ 31 <= x < 2 ^ 31 ->
  swizzle_sample host (encode32le xs ++ rest) 4 (2 * k) = Some x
  /\ (forall y, xs !! S k = Some y ->
        swizzle_sample host (encode32le xs ++ rest) 4 (2 * k + 1)
        = Some (to_int32 ((x / 2 ^ 16) mod 2 ^ 16 + (y mod 2 ^ 16) * 2 ^ 16))).
Proof.
  intros Hx Hr.
  pose proof (lookup_lt_Some _ _ _ Hx) as Hk.
  pose proof (swizzle_sample_value host (encode32le xs ++ rest) 4) as Hs.
  split.
  - rewrite Hs. destruct (decide (4 <= 4)%nat) as [_|Hn]; [|lia].
    unfold read_bytes. rewrite length_app, encode32le_length.
    destruct (decide _) as [_|Hn]; [|lia].
    replace (2 * (2 * k))%nat with (4 * k)%nat by lia.
    rewrite encode32le_drop by lia. rewrite (drop_S _ _ _ Hx), encode32le_cons.
    cbn [take app fmap option_fmap option_map].
    rewrite le_value_word, to_int32_wrap by exact Hr. reflexivity.
  - intros y Hy. pose proof (lookup_lt_Some _ _ _ Hy) as Hk'.
    rewrite Hs. destruct (decide (4 <= 4)%nat) as [_|Hn]; [|lia].
    unfold read_bytes. rewrite length_app, encode32le_length.
    destruct (decide _) as [_|Hn]; [|lia].
    replace (2 * (2 * k + 1))%nat with (4 * k + 2)%nat by lia.
    rewrite <- drop_drop. rewrite encode32le_drop by lia.
    rewrite (drop_S _ _ _ Hx), encode32le_cons.
    rewrite (drop_S _ _ _ Hy), encode32le_cons.
    cbn [take drop app fmap option_fmap option_map].
    rewrite le_value_straddle. reflexivity.
Qed.

Lemma swizzle_32bit_reads_at_half_stride_witness :
  swizzle_sample BigEndian (encode32le [-7; 2; 3; 4] ++ []) 4 (2 * 0) = Some (-7)
  /\ (forall y, [-7; 2; 3; 4] !! 1%nat = Some y ->
        swizzle_sample BigEndian (encode32le [-7; 2; 3; 4] ++ []) 4 (2 * 0 + 1)
        = Some (to_int32 ((-7 / 2 ^ 16) mod 2 ^ 16 + (y mod 2 ^ 16) * 2 ^ 16))).
Proof.
  apply (swizzle_32bit_reads_at_half_stride BigEndian [-7; 2; 3; 4] [] 0 (-7)).
  - reflexivity.
  - lia.
Defined.

(** Four 32-bit samples through the loop: the second half of the input is
    never read, and every second cell mixes two samples. *)
Example swizzle_32bit_run :
  samples_written 4
    <$> swizzle LittleEndian (encode32le [1; 2; 3; 4]) 4 4 (fresh_block 16)
  = Some [Some 1; Some 131072; Some 2; Some 196608].
Proof. vm_compute. reflexivity. Qed.

(** ** The buffers of an iteration *)

Lemma retrieved_length (q : queue_response) (needed : nat) (buf : list byte) :
  length ((getPlayerChunkOrSilence q needed).2 ++ drop needed (resize_up buf needed))
  = Nat.max (length buf) needed.
Proof.
  rewrite length_app, length_drop.
  assert (Hr : length (getPlayerChunkOrSilence q needed).2 = needed).
  { destruct q; simpl; [rewrite length_map, length_seq | rewrite length_replicate];
      reflexivity. }
  rewrite Hr. unfold resize_up. destruct (decide _) as [Hlt|Hge].
  - rewrite length_app, length_replicate. lia.
  - lia.
Qed.

Lemma iteration_buffer_length (P : Platform) (fmt : SampleFormat) (time : Z)
    (q : queue_response) (write_ret : Z) (st : SonosLLAPlayer) :
  scales_in_place P ->
  length (buffer_ (iteration_body P fmt time q write_ret st).1.2)
  = Nat.max (length (buffer_ st)) (Z.to_nat (bd_num_samples st * frameSize fmt)).
Proof.
  intros Hscale. rewrite iteration_body_buffer.
  destruct (getPlayerChunkOrSilence q _).1; [rewrite Hscale|]; apply retrieved_length.
Qed.

(** How the conversion of an iteration ends, in terms of its reads and
    stores. *)
Lemma swizzle_is_Some (host : byte_order) (buf : list byte) (bps count : nat)
    (blk : sample_block) :
  is_Some (swizzle host buf bps count blk)
  <-> (count = 0%nat
       \/ ((bps <= 4)%nat /\ (2 * (count - 1) + bps <= length buf)%nat
           /\ 4 * Z.of_nat count <= blk_bytes blk)).
Proof.
  pose proof (swizzle_sample_value host buf bps) as Hs.
  split.
  - intros [blk' E]. destruct count as [|c]; [left; reflexivity|right].
    apply swizzle_from_inv in E as (_ & Hcap & Hin & _).
    destruct (Hin c ltac:(lia)) as (v & Hv & _).
    rewrite Hs in Hv. destruct (decide (bps <= 4)%nat) as [Hb|Hb]; [|discriminate Hv].
    destruct (read_bytes buf (2 * c) bps) as [src|] eqn:Er; [|discriminate Hv].
    apply read_bytes_Some in Er as (Hlen & _).
    destruct Hcap as [Hc|Hc]; [discriminate Hc|].
    split; [exact Hb|]. split; [simpl; lia | simpl in Hc; lia].
  - intros [->|(Hb & Hlen & Hcap)]; [simpl; eauto|].
    destruct count as [|c]; [simpl; eauto|].
    apply swizzle_from_defined.
    + intros j Hj. rewrite Hs. destruct (decide (bps <= 4)%nat) as [_|Hn]; [|lia].
      destruct (proj2 (read_bytes_is_Some buf (2 * j) bps) ltac:(simpl in Hlen; lia))
        as [src ->]. simpl. eauto.
    + right. simpl. lia.
Qed.

(** X9: For samples of 2, 3 or 4 bytes every read of the conversion lies in
    the bytes that were just retrieved, so the iteration leaves defined
    behaviour exactly when a store leaves the block [bd.samples]: it
    returns if and only if all stores are inside the block. *)
Theorem iteration_defined_iff_writes_in_bounds (P : Platform) (fmt : SampleFormat)
    (time : Z) (q : queue_response) (write_ret : Z) (st : SonosLLAPlayer)
    (blk : sample_block) :
  scales_in_place P ->
  2 <= bits fmt / 8 <= 4 ->
  0 <= bd_num_samples st -> 0 <= channels fmt ->
  bd_samples st = Some blk ->
  let out := iteration_body P fmt time q write_ret st in
  let count := Z.to_nat (bd_num_samples st * channels fmt) in
  (out.1.1 = Returns tt <-> writes_in_bounds blk count)
  /\ (out.1.1 = Undefined <-> ~ writes_in_bounds blk count)
  /\ (writes_in_bounds blk count ->
      exists blk', bd_samples out.1.2 = Some blk'
                   /\ blk_bytes blk' = blk_bytes blk
                   /\ bd_num_samples out.1.2 = bd_num_samples st).
Proof.
  intros Hscale Hw Hn Hc Hblk out count.
  pose proof (iteration_body_converts P fmt time q write_ret st blk Hblk) as Hconv.
  pose proof (iteration_buffer_length P fmt time q write_ret st Hscale) as Hlen.
  pose proof (needed_is_count_times_width fmt (bd_num_samples st) Hn Hc ltac:(lia))
    as Hneeded.
  destruct (iteration_body_calls P fmt time q write_ret st) as (Hnum & _).
  simpl in Hconv. fold out in Hconv, Hlen, Hnum. fold count in Hconv, Hneeded.
  pose proof (swizzle_is_Some (host_order P) (buffer_ out.1.2)
                (Z.to_nat (bits fmt / 8)) count blk) as Hsome.
  pose proof (writes_in_bounds_iff blk count) as Hwb.
  assert (Hreads : count = 0%nat \/
            (2 * (count - 1) + Z.to_nat (bits fmt / 8) <= length (buffer_ out.1.2))%nat).
  { destruct count as [|c]; [left; reflexivity|right].
    rewrite Hlen, Hneeded.
    assert (2 <= Z.to_nat (bits fmt / 8))%nat by lia. nia. }
  destruct (swizzle _ _ _ _ _) as [blk'|] eqn:E.
  - destruct Hconv as [Hret Hs'].
    assert (Hin : writes_in_bounds blk count).
    { apply Hwb. destruct (proj1 Hsome ltac:(eauto)) as [H0|(_ & _ & Hcap)]; auto. }
    split; [split; auto|]. split.
    + rewrite Hret. split; [intros H; discriminate H | intros H; contradiction].
    + intros _. exists blk'. split; [exact Hs'|]. split; [|exact Hnum].
      apply swizzle_from_inv in E as (Hb & _). exact Hb.
  - assert (Hout : ~ writes_in_bounds blk count).
    { intros Hin. apply Hwb in Hin.
      assert (is_Some (None : option sample_block)) as [x Hx]; [|discriminate Hx].
      apply Hsome. destruct Hin as [H0|Hcap]; [left; exact H0|].
      destruct Hreads as [H0|Hr]; [left; exact H0|right].
      split; [lia|]. split; [exact Hr | exact Hcap]. }
    split; [rewrite Hconv; split; [intros H; discriminate H | intros H; contradiction]|].
    split; [split; auto|]. intros H. contradiction.
Qed.


Lemma iteration_defined_iff_writes_in_bounds_witness :
  let out := iteration_body (alsa_platform 0) cd_stereo 4 NotReady (-1) started_player in
  let count := Z.to_nat (bd_num_samples started_player * channels cd_stereo) in
  (out.1.1 = Returns tt <-> writes_in_bounds (fresh_block 6400) count)
  /\ (out.1.1 = Undefined <-> ~ writes_in_bounds (fresh_block 6400) count)
  /\ (writes_in_bounds (fresh_block 6400) count ->
      exists blk', bd_samples out.1.2 = Some blk'
                   /\ blk_bytes blk' = blk_bytes (fresh_block 6400)
                   /\ bd_num_samples out.1.2 = bd_num_samples started_player).
Proof.
  apply (iteration_defined_iff_writes_in_bounds (alsa_platform 0) cd_stereo 4 NotReady
           (-1) started_player (fresh_block 6400)).
  - intros buf frames. reflexivity.
  - vm_compute. split; discriminate.
  - vm_compute. discriminate.
  - vm_compute. discriminate.
  - reflexivity.
Defined.

(** X13: For 8-bit samples the loop reads sample [i] from byte [2 * i], while
    only one byte per sample was retrieved: with two samples or more and a
    [buffer_] no longer than the retrieved bytes, the last reads lie
    behind the end of the vector and the iteration leaves defined
    behaviour. *)
Theorem eight_bit_conversion_reads_past_buffer (P : Platform) (fmt : SampleFormat)
    (time : Z) (q : queue_response) (write_ret : Z) (st : SonosLLAPlayer) :
  scales_in_place P ->
  bits fmt / 8 = 1 ->
  0 <= channels fmt ->
  2 <= bd_num_samples st * channels fmt ->
  (length (buffer_ st) <= Z.to_nat (bd_num_samples st * frameSize fmt))%nat ->
  (iteration_body P fmt time q write_ret st).1.1 = Undefined.
Proof.
  intros Hscale Hw Hc Hcount Hlen.
  assert (Hn : 0 <= bd_num_samples st) by nia.
  pose proof (iteration_buffer_length P fmt time q write_ret st Hscale) as Hbuf.
  pose proof (needed_is_count_times_width fmt (bd_num_samples st) Hn Hc ltac:(lia))
    as Hneeded.
  rewrite Hw in Hneeded. change (Z.to_nat 1) with 1%nat in Hneeded.
  destruct (bd_samples st) as [blk|] eqn:Hblk.
  - pose proof (iteration_body_converts P fmt time q write_ret st blk Hblk) as Hconv.
    simpl in Hconv. rewrite Hw in Hconv. change (Z.to_nat 1) with 1%nat in Hconv.
    destruct (swizzle _ _ _ _ _) as [blk'|] eqn:E; [|exact Hconv].
    exfalso.
    destruct (proj1 (swizzle_is_Some _ _ _ _ _) ltac:(eauto)) as [H0|(_ & Hr & _)];
      [lia|].
    rewrite Hbuf in Hr. lia.
  - rewrite iteration_body_unfold, Hblk.
    destruct (Z.to_nat (bd_num_samples st * channels fmt)) eqn:E; [lia|reflexivity].
Qed.

Lemma eight_bit_conversion_reads_past_buffer_witness :
  (iteration_body (alsa_platform 0) {| rate := 8000; bits := 8; channels := 1 |}
     25 NotReady 0 started_player).1.1 = Undefined.
Proof.
  apply eight_bit_conversion_reads_past_buffer.
  - intros buf frames. reflexivity.
  - reflexivity.
  - vm_compute. discriminate.
  - vm_compute. discriminate.
  - vm_compute. lia.
Defined.

(** ** Whole runs of the worker *)

Section WorkerRuns.

Variable P : Platform.
Variable fmt : SampleFormat.
Variable o : Oracle.

(** A property kept by every step is kept by every run. *)
Lemma worker_invariant (I : wstate -> Prop) :
  (forall s, I s -> I (step P fmt o s)) ->
  forall fuel s, I s -> I (worker P fmt o fuel s).
Proof.
  intros Hstep. induction fuel as [|fuel IH]; intros s Hs; simpl; [exact Hs|].
  apply IH, Hstep, Hs.
Qed.

(** The three things a step can be: nothing at all (the worker has
    returned or crashed), the evaluation of a loop condition that leaves
    the player alone (and leaves defined behaviour only if the budget of
    line 179 has no defined value), or the rest of an iteration after the
    inner loop. *)
Lemma step_cases (s : wstate) :
  step P fmt o s = s
  \/ (w_player (step P fmt o s) = w_player s
      /\ w_rounds (step P fmt o s) = w_rounds s
      /\ (w_trace (step P fmt o s) = w_trace s
          \/ w_trace (step P fmt o s) = w_trace s ++ [WaitForChunk 100; LogWaiting])
      /\ w_pc s <> Crashed
      /\ (w_pc (step P fmt o s) = Crashed ->
          time_budget fmt (bd_num_samples (w_player s)) = None))
  \/ (exists t reads polls tr,
        w_pc s = AtInner t
        /\ step P fmt o s = run_body P fmt o t s reads polls tr
        /\ (tr = [] \/ tr = [WaitForChunk 100])).
Proof.
  unfold step. destruct (w_pc s) as [|t| |] eqn:Epc.
  - right. left. destruct (active_at o (w_reads s)); simpl.
    + split; [reflexivity|]. split; [reflexivity|]. split; [auto|].
      split; [discriminate|].
      destruct (time_budget fmt _); [intros H; discriminate H | reflexivity].
    + repeat split; auto; discriminate.
  - destruct (active_at o (w_reads s)); [destruct (wait_at o (w_polls s))|].
    + right. right. exists t, (S (w_reads s)), (S (w_polls s)), [WaitForChunk 100]. auto.
    + right. left. simpl. repeat split; auto; discriminate.
    + right. right. exists t, (S (w_reads s)), (w_polls s), []. auto.
  - left. reflexivity.
  - left. reflexivity.
Qed.

(** The calls of one iteration, counted: one retrieval, and one write
    exactly when the iteration returns. *)
Lemma iteration_body_counts (time : Z) (q : queue_response) (write_ret : Z)
    (st : SonosLLAPlayer) :
  let out := iteration_body P fmt time q write_ret st in
  count_calls is_retrieval out.2 = 1%nat
  /\ count_calls is_write out.2
     = match out.1.1 with Returns _ => 1%nat | _ => 0%nat end
  /\ Forall (fun e => is_worker_call e = true) out.2.
Proof.
  intros out. subst out. rewrite iteration_body_unfold.
  destruct (getPlayerChunkOrSilence q _).1;
    (destruct (bd_samples st) as [blk|];
     [ destruct (swizzle _ _ _ _ _)
     | destruct (Z.to_nat (bd_num_samples st * channels fmt)) ]);
    simpl; repeat split; try reflexivity; repeat constructor.
Qed.

(** What one iteration leaves alone: the flag, the frame counts and the
    device tokens; a null [bd.samples] stays null and a block keeps its
    size. *)
Lemma iteration_body_frame (time : Z) (q : queue_response) (write_ret : Z)
    (st : SonosLLAPlayer) :
  let st' := (iteration_body P fmt time q write_ret st).1.2 in
  active_ st' = active_ st
  /\ m_num_samples st' = m_num_samples st
  /\ bd_num_samples st' = bd_num_samples st
  /\ in_instance st' = in_instance st
  /\ out_instance st' = out_instance st
  /\ blk_bytes <$> bd_samples st' = blk_bytes <$> bd_samples st.
Proof.
  intros st'. subst st'. rewrite iteration_body_unfold.
  destruct (bd_samples st) as [blk|] eqn:Hblk.
  - destruct (swizzle _ _ _ _ _) as [blk'|] eqn:E; simpl.
    + apply swizzle_from_inv in E as (Hb & _). rewrite Hb. repeat split; reflexivity.
    + rewrite Hblk. repeat split; reflexivity.
  - destruct (Z.to_nat (bd_num_samples st * channels fmt)); simpl;
      rewrite Hblk; repeat split; reflexivity.
Qed.

End WorkerRuns.

(** X6: Over any run, whatever the environment answers, the worker calls
    only the stream, [adjustVolume], [write_fun] and the log - it never
    opens or closes a device and never allocates or frees. Its writes to
    the device never outnumber its retrievals and are at most one behind:
    a worker inside defined behaviour has written as many buffers as it
    has retrieved, and a retrieval whose write is missing belongs to a
    worker that has left defined behaviour. *)
Theorem worker_retrieves_once_per_write (P : Platform) (fmt : SampleFormat)
    (o : Oracle) (fuel : nat) (st : SonosLLAPlayer) :
  let s := worker P fmt o fuel (worker_entry st) in
  let retrievals := count_calls is_retrieval (w_trace s) in
  let writes := count_calls is_write (w_trace s) in
  Forall (fun e => is_worker_call e = true) (w_trace s)
  /\ (writes <= retrievals <= S writes)%nat
  /\ (w_pc s <> Crashed -> writes = retrievals)
  /\ (retrievals = S writes -> w_pc s = Crashed).
Proof.
  intros s retrievals writes. subst retrievals writes s.
  cut (Forall (fun e => is_worker_call e = true)
         (w_trace (worker P fmt o fuel (worker_entry st)))
       /\ (count_calls is_write (w_trace (worker P fmt o fuel (worker_entry st)))
           <= count_calls is_retrieval (w_trace (worker P fmt o fuel (worker_entry st)))
           <= S (count_calls is_write (w_trace (worker P fmt o fuel (worker_entry st)))))%nat
       /\ (w_pc (worker P fmt o fuel (worker_entry st)) <> Crashed ->
           count_calls is_write (w_trace (worker P fmt o fuel (worker_entry st)))
           = count_calls is_retrieval (w_trace (worker P fmt o fuel (worker_entry st))))).
  { intros (H1 & H2 & H3). split; [exact H1|]. split; [exact H2|]. split; [exact H3|].
    intros E. destruct (w_pc (worker P fmt o fuel (worker_entry st))) eqn:Epc;
      try reflexivity; rewrite H3 in E by discriminate; lia. }
  apply (worker_invariant P fmt o (fun s =>
    Forall (fun e => is_worker_call e = true) (w_trace s)
    /\ (count_calls is_write (w_trace s) <= count_calls is_retrieval (w_trace s)
        <= S (count_calls is_write (w_trace s)))%nat
    /\ (w_pc s <> Crashed ->
        count_calls is_write (w_trace s) = count_calls is_retrieval (w_trace s)))).
  - intros s (Hall & Hle & Hok).
    destruct (step_cases P fmt o s)
      as [E|[(Hpl & Hr & Htr & Hnc & Hnc')|(t & reads & polls & tr & Epc & E & Htr)]].
    + rewrite E. auto.
    + destruct Htr as [-> | ->].
      * split; [exact Hall|]. split; [exact Hle|]. intros _. apply Hok, Hnc.
      * rewrite !count_calls_app.
        change (count_calls is_retrieval [WaitForChunk 100; LogWaiting]) with 0%nat.
        change (count_calls is_write [WaitForChunk 100; LogWaiting]) with 0%nat.
        rewrite !Nat.add_0_r.
        split; [apply Forall_app; split; [exact Hall | repeat constructor]|].
        split; [exact Hle|]. intros _. apply Hok, Hnc.
    + rewrite E.
      destruct (run_body_shape P fmt o t s reads polls tr)
        as (Hpc & Hret & _ & _ & _ & _ & Htrace).
      destruct (iteration_body_counts P fmt t (queue_at o (w_rounds s))
                  (write_at o (w_rounds s)) (w_player s)) as (Hg & Hw & Hcalls).
      assert (Hnc : w_pc s <> Crashed) by (rewrite Epc; discriminate).
      assert (Htr0 : count_calls is_retrieval tr = 0%nat /\ count_calls is_write tr = 0%nat
                     /\ Forall (fun e => is_worker_call e = true) tr).
      { destruct Htr as [-> | ->]; repeat split; repeat constructor. }
      destruct Htr0 as (Hg0 & Hw0 & Hc0).
      pose proof (Hok Hnc) as Heq.
      rewrite Htrace, !count_calls_app, Hg, Hw, Hg0, Hw0, Heq.
      split; [repeat (apply Forall_app; split); assumption|].
      split.
      * destruct (iteration_body _ _ _ _ _ _).1.1 as [[]|c|]; lia.
      * intros Hpc'. destruct Hpc as [Hpc|Hpc]; [|contradiction].
        apply Hret in Hpc. rewrite Hpc. lia.
  - simpl. split; [constructor|]. split; [|reflexivity].
    change (count_calls is_write []) with 0%nat.
    change (count_calls is_retrieval []) with 0%nat. lia.
Qed.

(** X7: Over any run the worker leaves the device tokens, [active_], both
    frame counts and the size of the block [bd.samples] as it found
    them: it changes only the contents of [buffer_] and of the block. *)
Theorem worker_keeps_device_state (P : Platform) (fmt : SampleFormat)
    (o : Oracle) (fuel : nat) (st : SonosLLAPlayer) :
  let st' := w_player (worker P fmt o fuel (worker_entry st)) in
  active_ st' = active_ st
  /\ m_num_samples st' = m_num_samples st
  /\ bd_num_samples st' = bd_num_samples st
  /\ in_instance st' = in_instance st
  /\ out_instance st' = out_instance st
  /\ blk_bytes <$> bd_samples st' = blk_bytes <$> bd_samples st.
Proof.
  intros st'. subst st'.
  apply (worker_invariant P fmt o (fun s =>
    active_ (w_player s) = active_ st
    /\ m_num_samples (w_player s) = m_num_samples st
    /\ bd_num_samples (w_player s) = bd_num_samples st
    /\ in_instance (w_player s) = in_instance st
    /\ out_instance (w_player s) = out_instance st
    /\ blk_bytes <$> bd_samples (w_player s) = blk_bytes <$> bd_samples st)).
  - intros s Hs.
    destruct (step_cases P fmt o s)
      as [E|[(Hpl & _)|(t & reads & polls & tr & Epc & E & Htr)]].
    + rewrite E. exact Hs.
    + rewrite Hpl. exact Hs.
    + rewrite E.
      destruct (run_body_shape P fmt o t s reads polls tr) as (_ & _ & Hpl & _).
      rewrite Hpl.
      destruct (iteration_body_frame P fmt t (queue_at o (w_rounds s))
                  (write_at o (w_rounds s)) (w_player s))
        as (H1 & H2 & H3 & H4 & H5 & H6).
      destruct Hs as (G1 & G2 & G3 & G4 & G5 & G6).
      rewrite H1, H2, H3, H4, H5, H6. auto 10.
  - simpl. auto 10.
Qed.

(** X4: [start] swallows a busy device with the words "the worker loop will
    retry", but [worker] never calls [init]: when the failure came before
    the allocation (the open or the malloc failed), [start] leaves the
    engine running with [bd.samples] null, the first iteration that
    reaches the conversion stores through the null pointer, and no buffer
    is ever written to the device. *)
Theorem worker_after_swallowed_failure_never_writes (P : Platform)
    (fmt : SampleFormat) (env : InitEnv) (st : SonosLLAPlayer)
    (o : Oracle) (fuel : nat) :
  bd_samples st = None ->
  (open_output_ret env < 0 \/ malloc_succeeds env = false) ->
  (start P fmt env st).1.1 = Returns tt ->
  0 < 50 * SAMPLES_PER_BUFFER P * channels fmt ->
  let started := (start P fmt env st).1.2 in
  let s := worker P fmt o fuel (worker_entry started) in
  active_ started = true
  /\ bd_samples started = None
  /\ count_calls is_write (w_trace s) = 0%nat
  /\ ((1 <= w_rounds s)%nat -> w_pc s = Crashed).
Proof.
  intros Hnone Hfail Hret Hcount started s.
  destruct (init_leaves_samples P fmt env st) as [Hnum Hsamples].
  assert (Hst : active_ started = true /\ bd_samples started = None
                /\ bd_num_samples started = 50 * SAMPLES_PER_BUFFER P).
  { subst started. rewrite start_unfold in Hret |- *.
    destruct (init P fmt env st) as [[o1 st1] tr1] eqn:Ei. simpl in *.
    assert (Hs1 : bd_samples st1 = None).
    { rewrite Hsamples, Hnone.
      destruct (Z.ltb_spec (open_output_ret env) 0) as [Ho|Ho]; [reflexivity|].
      destruct Hfail as [Hf|Hf]; [lia | rewrite Hf; reflexivity]. }
    destruct o1 as [[]|code|]; [| destruct (code =? - EBUSY) |]; simpl in *;
      try discriminate Hret; auto. }
  destruct Hst as (Hact & Hsam & Hn).
  split; [exact Hact|]. split; [exact Hsam|].
  subst s.
  cut (count_calls is_write (w_trace (worker P fmt o fuel (worker_entry started))) = 0%nat
       /\ ((1 <= w_rounds (worker P fmt o fuel (worker_entry started)))%nat ->
           w_pc (worker P fmt o fuel (worker_entry started)) = Crashed)).
  { intros [H1 H2]. auto. }
  cut (bd_samples (w_player (worker P fmt o fuel (worker_entry started))) = None
       /\ bd_num_samples (w_player (worker P fmt o fuel (worker_entry started)))
          = 50 * SAMPLES_PER_BUFFER P
       /\ count_calls is_write (w_trace (worker P fmt o fuel (worker_entry started))) = 0%nat
       /\ ((1 <= w_rounds (worker P fmt o fuel (worker_entry started)))%nat ->
           w_pc (worker P fmt o fuel (worker_entry started)) = Crashed)).
  { intros (_ & _ & H1 & H2). auto. }
  apply (worker_invariant P fmt o (fun s =>
    bd_samples (w_player s) = None
    /\ bd_num_samples (w_player s) = 50 * SAMPLES_PER_BUFFER P
    /\ count_calls is_write (w_trace s) = 0%nat
    /\ ((1 <= w_rounds s)%nat -> w_pc s = Crashed))).
  - intros s (Hs & Hns & Hw & Hr).
    destruct (step_cases P fmt o s)
      as [E|[(Hpl & Hrd & Htr & Hnc & Hnc')|(t & reads & polls & tr & Epc & E & Htr)]].
    + rewrite E. auto.
    + rewrite Hpl, Hrd. split; [exact Hs|]. split; [exact Hns|]. split.
      * destruct Htr as [-> | ->]; [exact Hw|].
        rewrite count_calls_app, Hw. reflexivity.
      * intros H. exfalso. apply Hnc, Hr, H.
    + rewrite E. unfold run_body.
      rewrite iteration_body_unfold, Hs, Hns.
      destruct (Z.to_nat (50 * SAMPLES_PER_BUFFER P * channels fmt)) eqn:Ec; [lia|].
      simpl. split; [exact Hs|]. split; [exact Hns|]. split.
      * rewrite !count_calls_app, Hw.
        destruct Htr as [-> | ->];
          destruct (getPlayerChunkOrSilence _ _).1; reflexivity.
      * intros _. reflexivity.
  - simpl. split; [exact Hsam|]. split; [exact Hn|]. split; [reflexivity|]. lia.
Qed.

Lemma worker_after_swallowed_failure_never_writes_witness :
  let started := (start (alsa_platform (- EBUSY)) cd_stereo env_open_fails constructed).1.2 in
  let s := worker (alsa_platform (- EBUSY)) cd_stereo (stop_after 4) 6
             (worker_entry started) in
  active_ started = true
  /\ bd_samples started = None
  /\ count_calls is_write (w_trace s) = 0%nat
  /\ ((1 <= w_rounds s)%nat -> w_pc s = Crashed).
Proof.
  apply (worker_after_swallowed_failure_never_writes (alsa_platform (- EBUSY)) cd_stereo
           env_open_fails constructed (stop_after 4) 6).
  - reflexivity.
  - left. vm_compute. reflexivity.
  - reflexivity.
  - vm_compute. reflexivity.
Defined.

(** The same environment on a player whose device was busy: the worker
    crashes in its first iteration, after the retrieval and before any
    write. *)
Example worker_after_busy_device :
  let started := (start (alsa_platform (- EBUSY)) cd_stereo env_open_fails constructed).1.2 in
  let s := worker (alsa_platform (- EBUSY)) cd_stereo (stop_after 4) 6
             (worker_entry started) in
  w_pc s = Crashed
  /\ call_kind <$> w_trace s
     = ["waitForChunk"; "log waiting"; "waitForChunk";
        "getPlayerChunkOrSilence"; "log silence"]%string.
Proof. vm_compute. split; reflexivity. Qed.

(** An iteration on a block that holds all its stores, for samples of 2
    to 4 bytes: it returns and leaves a block of the same size. *)
Lemma iteration_returns_in_bounds (P : Platform) (fmt : SampleFormat)
    (time : Z) (q : queue_response) (write_ret : Z) (st : SonosLLAPlayer)
    (blk : sample_block) :
  scales_in_place P ->
  2 <= bits fmt / 8 <= 4 ->
  0 <= bd_num_samples st -> 0 <= channels fmt ->
  bd_samples st = Some blk ->
  writes_in_bounds blk (Z.to_nat (bd_num_samples st * channels fmt)) ->
  exists blk',
    (iteration_body P fmt time q write_ret st).1.1 = Returns tt
    /\ bd_samples (iteration_body P fmt time q write_ret st).1.2 = Some blk'
    /\ blk_bytes blk' = blk_bytes blk.
Proof.
  intros Hscale Hw Hn Hc Hblk Hin.
  pose proof (iteration_body_converts P fmt time q write_ret st blk Hblk) as Hconv.
  pose proof (iteration_buffer_length P fmt time q write_ret st Hscale) as Hlen.
  pose proof (needed_is_count_times_width fmt (bd_num_samples st) Hn Hc ltac:(lia))
    as Hneeded.
  simpl in Hconv.
  set (count := Z.to_nat (bd_num_samples st * channels fmt)) in *.
  destruct (proj2 (swizzle_is_Some (host_order P)
                     (buffer_ (iteration_body P fmt time q write_ret st).1.2)
                     (Z.to_nat (bits fmt / 8)) count blk)) as [blk' E].
  { apply writes_in_bounds_iff in Hin. destruct Hin as [H0|Hcap]; [left; exact H0|].
    destruct count as [|c] eqn:Ec; [left; reflexivity|right].
    split; [lia|]. split; [|exact Hcap].
    rewrite Hlen, Hneeded.
    assert (2 <= Z.to_nat (bits fmt / 8))%nat by lia. nia. }
  rewrite E in Hconv. destruct Hconv as [Hret Hs].
  exists blk'. split; [exact Hret|]. split; [exact Hs|].
  apply swizzle_from_inv in E as (Hb & _). exact Hb.
Qed.

(** A worker on a block that holds all the stores of an iteration, with
    samples of 2 to 4 bytes and a budget that fits an [int], never leaves
    defined behaviour, whatever it is answered. *)
Lemma worker_stays_defined (P : Platform) (fmt : SampleFormat) (o : Oracle)
    (st : SonosLLAPlayer) (blk : sample_block) :
  scales_in_place P ->
  2 <= bits fmt / 8 <= 4 ->
  0 <= bd_num_samples st -> 0 <= channels fmt ->
  time_budget fmt (bd_num_samples st) <> None ->
  bd_samples st = Some blk ->
  writes_in_bounds blk (Z.to_nat (bd_num_samples st * channels fmt)) ->
  forall fuel, w_pc (worker P fmt o fuel (worker_entry st)) <> Crashed.
Proof.
  intros Hscale Hw Hn Hc Hbudget Hblk Hin fuel.
  cut ((exists blk', bd_samples (w_player (worker P fmt o fuel (worker_entry st)))
                     = Some blk' /\ blk_bytes blk' = blk_bytes blk)
       /\ bd_num_samples (w_player (worker P fmt o fuel (worker_entry st)))
          = bd_num_samples st
       /\ w_pc (worker P fmt o fuel (worker_entry st)) <> Crashed).
  { intros (_ & _ & H). exact H. }
  apply (worker_invariant P fmt o (fun s =>
    (exists blk', bd_samples (w_player s) = Some blk' /\ blk_bytes blk' = blk_bytes blk)
    /\ bd_num_samples (w_player s) = bd_num_samples st
    /\ w_pc s <> Crashed)).
  - intros s ((blk0 & Hs & Hb) & Hns & Hnc).
    destruct (step_cases P fmt o s)
      as [E|[(Hpl & _ & _ & _ & Hnc')|(t & reads & polls & tr & Epc & E & Htr)]].
    + rewrite E. eauto.
    + rewrite Hpl. split; [eauto|]. split; [exact Hns|].
      intros Hcr. apply Hnc' in Hcr. rewrite Hns in Hcr. contradiction.
    + rewrite E.
      destruct (run_body_shape P fmt o t s reads polls tr) as (Hpc & Hiff & Hpl & _).
      destruct (iteration_body_frame P fmt t (queue_at o (w_rounds s))
                  (write_at o (w_rounds s)) (w_player s)) as (_ & _ & Hnum' & _).
      destruct (iteration_returns_in_bounds P fmt t (queue_at o (w_rounds s))
                  (write_at o (w_rounds s)) (w_player s) blk0 Hscale Hw)
        as (blk' & Hret' & Hs' & Hb'); try assumption.
      { rewrite Hns. exact Hn. }
      { rewrite Hns. apply writes_in_bounds_iff. rewrite Hb.
        apply writes_in_bounds_iff. exact Hin. }
      rewrite Hpl. split; [exists blk'; split; [exact Hs' | congruence]|].
      split; [congruence|].
      rewrite (proj2 Hiff Hret'). discriminate.
  - simpl. split; [exists blk; split; [exact Hblk | reflexivity]|].
    split; [reflexivity | discriminate].
Qed.

(** X5: After a [start] whose [init] succeeded, with samples of 2 to 4 bytes,
    at most [MAX_NUM_CHANNELS] channels, a [SAMPLE_SIZE] of at least 4 and
    a time budget that line 179 can store in its [int] (a rate that is not
    0, a quotient that fits), the worker never leaves defined behaviour:
    whatever the stream, the device and [stop] do, and however long it
    runs, every read stays in [buffer_] and every store in [bd.samples]. *)
Theorem started_worker_never_crashes (P : Platform) (fmt : SampleFormat)
    (env : InitEnv) (st : SonosLLAPlayer) (o : Oracle) (fuel : nat) :
  scales_in_place P ->
  2 <= bits fmt / 8 <= 4 ->
  0 <= channels fmt <= MAX_NUM_CHANNELS P ->
  4 <= SAMPLE_SIZE P ->
  0 <= SAMPLES_PER_BUFFER P ->
  time_budget fmt (50 * SAMPLES_PER_BUFFER P) <> None ->
  (init P fmt env st).1.1 = Returns tt ->
  let started := (start P fmt env st).1.2 in
  (start P fmt env st).1.1 = Returns tt
  /\ active_ started = true
  /\ w_pc (worker P fmt o fuel (worker_entry started)) <> Crashed.
Proof.
  intros Hscale Hw Hch Hss Hspb Hbudget Hinit started.
  set (n := 50 * SAMPLES_PER_BUFFER P) in *.
  set (B := n * MAX_NUM_CHANNELS P * SAMPLE_SIZE P).
  destruct (init_leaves_samples P fmt env st) as [Hnum Hsam].
  assert (Hst : (start P fmt env st).1.1 = Returns tt /\ active_ started = true
                /\ bd_num_samples started = n
                /\ bd_samples started = Some (fresh_block B)).
  { subst started. rewrite start_unfold.
    destruct (init P fmt env st) as [[o1 st1] tr1] eqn:Ei. simpl in *.
    subst o1. simpl. split; [reflexivity|]. split; [reflexivity|].
    split; [exact Hnum|]. rewrite Hsam.
    revert Ei. unfold init, bind, modify, emit, throw, ret.
    destruct (open_output_ret env <? 0), (malloc_succeeds env),
      (platform_init_ret env <? 0); simpl; intros Ei; try discriminate Ei; reflexivity. }
  destruct Hst as (Hret & Hact & Hn & Hblk).
  split; [exact Hret|]. split; [exact Hact|].
  assert (Hbound : 4 * (n * channels fmt) <= B).
  { subst B n.
    assert (0 <= 50 * SAMPLES_PER_BUFFER P) by lia.
    assert (50 * SAMPLES_PER_BUFFER P * channels fmt
            <= 50 * SAMPLES_PER_BUFFER P * MAX_NUM_CHANNELS P)
      by (apply Z.mul_le_mono_nonneg_l; lia).
    assert (50 * SAMPLES_PER_BUFFER P * MAX_NUM_CHANNELS P * 4
            <= 50 * SAMPLES_PER_BUFFER P * MAX_NUM_CHANNELS P * SAMPLE_SIZE P)
      by (apply Z.mul_le_mono_nonneg_l; [apply Z.mul_nonneg_nonneg; lia | lia]).
    lia. }
  apply (worker_stays_defined P fmt o started (fresh_block B) Hscale Hw).
  - rewrite Hn. subst n. lia.
  - lia.
  - rewrite Hn. exact Hbudget.
  - exact Hblk.
  - apply writes_in_bounds_iff. right. rewrite Hn.
    rewrite Z2Nat.id by (apply Z.mul_nonneg_nonneg; subst n; lia). exact Hbound.
Qed.

Lemma started_worker_never_crashes_witness :
  let started := (start (alsa_platform 0) cd_stereo env_ok constructed).1.2 in
  (start (alsa_platform 0) cd_stereo env_ok constructed).1.1 = Returns tt
  /\ active_ started = true
  /\ w_pc (worker (alsa_platform 0) cd_stereo (stop_after 4) 3 (worker_entry started))
     <> Crashed.
Proof.
  apply (started_worker_never_crashes (alsa_platform 0) cd_stereo env_ok constructed
           (stop_after 4) 3).
  - intros buf frames. reflexivity.
  - vm_compute. split; discriminate.
  - vm_compute. split; discriminate.
  - vm_compute. discriminate.
  - vm_compute. discriminate.
  - vm_compute. discriminate.
  - reflexivity.
Defined.

(** The condition on the budget cannot be dropped: with a rate of 0
    everything else holds of the started player, and the worker leaves
    defined behaviour on line 179 of its first iteration. *)
Example worker_crashes_on_zero_rate :
  let fmt := {| rate := 0; bits := 16; channels := 2 |} in
  let started := (start (alsa_platform 0) fmt env_ok constructed).1.2 in
  (init (alsa_platform 0) fmt env_ok constructed).1.1 = Returns tt
  /\ time_budget fmt (50 * SAMPLES_PER_BUFFER (alsa_platform 0)) = None
  /\ w_pc (worker (alsa_platform 0) fmt (stop_after 4) 1 (worker_entry started)) = Crashed.
Proof. vm_compute. repeat split; reflexivity. Qed.

(** ** Leaving the loop *)

(** C5, as amended: the worker returns only from the outer loop condition
    and only on reading [active_] as false, and a worker that has returned
    has read it so; what [write_fun] returns changes nothing in a run;
    each wait is preceded by a fresh read of [active_] that returned true
    and is bounded by 100 ms. The worker leaves defined behaviour only at
    line 179, when the budget has no defined value, or in the rest of an
    iteration, and there only in the conversion: by a store through a
    null [bd.samples] or by an access outside [buffer_] or the block. On
    a player whose iterations stay inside defined behaviour - samples of
    2 to 4 bytes, a block [bd.samples] that holds [numFrames * channels]
    words, a budget that fits an [int] - the worker never leaves it;
    while [active_] reads true it is always in one of its two loops,
    whatever the stream answers (chunks or none) and whatever [write_fun]
    returns; and once [active_] reads false it has returned after at most
    two evaluations of a loop condition, finishing at most the iteration
    in progress and starting no further wait. *)
Theorem worker_exits_only_when_stopped (P : Platform) (fmt : SampleFormat)
    (o : Oracle) :
  (forall s, w_pc (step P fmt o s) = Exited ->
     w_pc s = Exited \/ (w_pc s = AtOuter /\ active_at o (w_reads s) = false))
  /\ (forall fuel st,
        w_pc (worker P fmt o fuel (worker_entry st)) = Exited ->
        exists k, (k < w_reads (worker P fmt o fuel (worker_entry st)))%nat
                  /\ active_at o k = false)
  /\ (forall s, w_pc (step P fmt o s) = Crashed ->
        w_pc s = Crashed
        \/ (w_pc s = AtOuter /\ active_at o (w_reads s) = true
            /\ time_budget fmt (bd_num_samples (w_player s)) = None)
        \/ (exists t, w_pc s = AtInner t
              /\ (active_at o (w_reads s) = false \/ wait_at o (w_polls s) = true)
              /\ (iteration_body P fmt t (queue_at o (w_rounds s))
                    (write_at o (w_rounds s)) (w_player s)).1.1 = Undefined))
  /\ (forall time q write_ret st,
        (iteration_body P fmt time q write_ret st).1.1 = Undefined
        <-> (bd_samples st = None
             /\ (0 < Z.to_nat (bd_num_samples st * channels fmt))%nat)
            \/ (exists blk, bd_samples st = Some blk
                  /\ swizzle (host_order P)
                       (buffer_ (iteration_body P fmt time q write_ret st).1.2)
                       (Z.to_nat (bits fmt / 8))
                       (Z.to_nat (bd_num_samples st * channels fmt)) blk
                     = None))
  /\ (forall o' fuel s,
        (forall k, active_at o' k = active_at o k) ->
        (forall k, wait_at o' k = wait_at o k) ->
        (forall k, queue_at o' k = queue_at o k) ->
        worker P fmt o' fuel s = worker P fmt o fuel s)
  /\ (forall s, w_polls (step P fmt o s) <> w_polls s ->
        active_at o (w_reads s) = true
        /\ w_reads (step P fmt o s) = S (w_reads s)
        /\ w_polls (step P fmt o s) = S (w_polls s))
  /\ (forall fuel st,
        Forall (wait_bounded_by 100) (w_trace (worker P fmt o fuel (worker_entry st))))
  /\ (forall st blk,
        scales_in_place P ->
        2 <= bits fmt / 8 <= 4 ->
        0 <= bd_num_samples st -> 0 <= channels fmt ->
        time_budget fmt (bd_num_samples st) <> None ->
        bd_samples st = Some blk ->
        writes_in_bounds blk (Z.to_nat (bd_num_samples st * channels fmt)) ->
        (forall fuel, w_pc (worker P fmt o fuel (worker_entry st)) <> Crashed)
        /\ ((forall k, active_at o k = true) ->
            forall fuel,
              w_pc (worker P fmt o fuel (worker_entry st)) = AtOuter
              \/ exists t, w_pc (worker P fmt o fuel (worker_entry st)) = AtInner t)
        /\ (forall fuel,
              let s := worker P fmt o fuel (worker_entry st) in
              (forall k, (w_reads s <= k)%nat -> active_at o k = false) ->
              w_pc (worker P fmt o 2 s) = Exited
              /\ w_polls (worker P fmt o 2 s) = w_polls s
              /\ (w_rounds (worker P fmt o 2 s) <= S (w_rounds s))%nat
              /\ (forall ms, WaitForChunk ms ∈ w_trace (worker P fmt o 2 s) ->
                             WaitForChunk ms ∈ w_trace s))).
Proof.
  split; [apply step_exit|].
  split; [intros fuel st; apply worker_exit_read_false|].
  split; [apply step_crash|].
  split; [intros time q write_ret st; apply iteration_undefined_in_conversion|].
  split; [intros o' fuel s Ha Hw Hq; apply worker_ignores_write_results; assumption|].
  split; [apply step_polls|].
  split; [intros fuel st; apply worker_waits_bounded; constructor|].
  intros st blk Hscale Hw Hn Hc Hbudget Hblk Hin.
  pose proof (worker_stays_defined P fmt o st blk Hscale Hw Hn Hc Hbudget Hblk Hin)
    as Hdefined.
  split; [exact Hdefined|].
  split.
  - intros Hact fuel.
    pose proof (Hdefined fuel) as Hnc.
    pose proof (worker_never_exits_while_active P fmt o fuel Hact (worker_entry st)
                  ltac:(simpl; discriminate)) as Hne.
    destruct (w_pc (worker P fmt o fuel (worker_entry st))) as [|t| |];
      [left; reflexivity | right; exists t; reflexivity | contradiction | contradiction].
  - intros fuel s Hstop.
    destruct (worker_stops_within_one_iteration P fmt o s Hstop) as (H1 & H2 & H3 & H4).
    split; [|auto].
    destruct H1 as [H1|H1]; [exact H1|].
    exfalso. apply (Hdefined (fuel + 2)%nat).
    rewrite worker_add. exact H1.
Qed.

(** C5 on the started player: [stop] clears [active_] while the worker is
    in the inner loop of its first iteration; two evaluations of a loop
    condition later the worker has returned, without having waited and
    after finishing that one iteration. *)
Lemma worker_exits_only_when_stopped_witness :
  let s := worker (alsa_platform 0) cd_stereo (stop_after 1) 1 (worker_entry started_player) in
  w_pc s = AtInner 4
  /\ w_pc (worker (alsa_platform 0) cd_stereo (stop_after 1) 2 s) = Exited
  /\ w_polls (worker (alsa_platform 0) cd_stereo (stop_after 1) 2 s) = w_polls s
  /\ (w_rounds (worker (alsa_platform 0) cd_stereo (stop_after 1) 2 s) <= S (w_rounds s))%nat
  /\ (forall ms,
        WaitForChunk ms ∈ w_trace (worker (alsa_platform 0) cd_stereo (stop_after 1) 2 s) ->
        WaitForChunk ms ∈ w_trace s).
Proof.
  split; [reflexivity|].
  destruct (worker_exits_only_when_stopped (alsa_platform 0) cd_stereo (stop_after 1))
    as (_ & _ & _ & _ & _ & _ & _ & H).
  destruct (H started_player (fresh_block 6400)) as (_ & _ & Hstop).
  - intros buf frames. reflexivity.
  - vm_compute. split; discriminate.
  - vm_compute. discriminate.
  - vm_compute. discriminate.
  - vm_compute. discriminate.
  - reflexivity.
  - apply writes_in_bounds_iff. right. vm_compute. discriminate.
  - apply (Hstop 1%nat). intros k Hk. apply Nat.ltb_ge. exact Hk.
Defined.

(** C5, as stated, fails: the worker does not always return once [stop] is
    requested, and it can end while [active_] is true. For an 8-bit mono
    stream on the started player, [active_] is cleared while the worker
    is in the inner loop of its first iteration; the iteration in
    progress is finished without waiting, its conversion reads behind
    the end of [buffer_], and the worker has left defined behaviour: it
    never returns. With [active_] true at every read the same worker ends
    in its first iteration, on an underrun. So does, for 16-bit samples,
    the worker of a stream with more channels than the block was
    allocated for. *)
Lemma eight_bit_worker_never_returns :
  let started := (start (alsa_platform 0) phone_mono env_ok constructed).1.2 in
  let s := worker (alsa_platform 0) phone_mono (stop_after 1) 1 (worker_entry started) in
  let P2 := {| SAMPLES_PER_BUFFER := 1; MAX_NUM_CHANNELS := 2; SAMPLE_SIZE := 4;
               SONOS_ARCH_ATTR_USES_LLA := false; host_order := LittleEndian;
               snap_exception_code := 0; adjustVolume := fun buf _ => buf |} in
  let three := {| rate := 48000; bits := 16; channels := 3 |} in
  (start (alsa_platform 0) phone_mono env_ok constructed).1.1 = Returns tt
  /\ w_pc s = AtInner 25
  /\ (forall k, (w_reads s <= k)%nat -> active_at (stop_after 1) k = false)
  /\ (forall fuel,
        w_pc (worker (alsa_platform 0) phone_mono (stop_after 1) (S fuel) s) = Crashed)
  /\ active_at (stop_after 4) 0 = true
  /\ active_at (stop_after 4) 1 = true
  /\ active_at (stop_after 4) 2 = true
  /\ w_reads (worker (alsa_platform 0) phone_mono (stop_after 4) 3 (worker_entry started))
     = 3%nat
  /\ w_pc (worker (alsa_platform 0) phone_mono (stop_after 4) 3 (worker_entry started))
     = Crashed
  /\ call_kind <$> w_trace (worker (alsa_platform 0) phone_mono (stop_after 4) 3
                              (worker_entry started))
     = ["waitForChunk"; "log waiting"; "waitForChunk";
        "getPlayerChunkOrSilence"; "log silence"]%string
  /\ (start P2 three env_ok constructed).1.1 = Returns tt
  /\ w_pc (worker P2 three (stop_after 1) 3
             (worker_entry (start P2 three env_ok constructed).1.2)) = Crashed.
Proof.
  intros started s P2 three.
  split; [reflexivity|]. split; [reflexivity|].
  split; [intros k Hk; apply Nat.ltb_ge; exact Hk|].
  split; [|repeat split; reflexivity].
  intros fuel. subst s started.
  change (worker (alsa_platform 0) phone_mono (stop_after 1) (S fuel)
            (worker (alsa_platform 0) phone_mono (stop_after 1) 1
               (worker_entry (start (alsa_platform 0) phone_mono env_ok constructed).1.2)))
    with (worker (alsa_platform 0) phone_mono (stop_after 1) fuel
            (step (alsa_platform 0) phone_mono (stop_after 1)
               (worker (alsa_platform 0) phone_mono (stop_after 1) 1
                  (worker_entry (start (alsa_platform 0) phone_mono env_ok constructed).1.2)))).
  rewrite worker_stopped; [reflexivity | right; reflexivity].
Qed.



(** ** The time budget *)



(** ** Cover art *)

(** X15: [ArtData::operator==] holds exactly when both strings are equal, and
    it does not matter from which side the comparison is made;
    [operator!=], which compares from the other side, is its negation. *)
Theorem ArtData_eq_decides_equality (a b : ArtData) :
  (ArtData_eq a b = true <-> a = b)
  /\ ArtData_eq a b = ArtData_eq b a
  /\ ArtData_ne a b = negb (ArtData_eq a b)
  /\ (ArtData_ne a b = true <-> a <> b).
Proof.
  assert (Hiff : forall x y, ArtData_eq x y = true <-> x = y).
  { intros [d1 e1] [d2 e2]. unfold ArtData_eq. simpl.
    rewrite andb_true_iff, !String.eqb_eq. split.
    - intros [-> ->]. reflexivity.
    - intros [= -> ->]. auto. }
  assert (Hsym : forall x y, ArtData_eq x y = ArtData_eq y x).
  { intros x y. destruct (ArtData_eq x y) eqn:E1, (ArtData_eq y x) eqn:E2;
      try reflexivity.
    - apply Hiff in E1. subst y. rewrite (proj2 (Hiff x x) eq_refl) in E2. discriminate E2.
    - apply Hiff in E2. subst y. rewrite (proj2 (Hiff x x) eq_refl) in E1. discriminate E1. }
  split; [apply Hiff|]. split; [apply Hsym|].
  unfold ArtData_ne. split; [rewrite (Hsym b a); reflexivity|].
  rewrite (Hsym b a), negb_true_iff. split.
  - intros E Heq. apply Hiff in Heq. congruence.
  - intros Hne. destruct (ArtData_eq a b) eqn:E; [|reflexivity].
    apply Hiff in E. contradiction.
Qed.

(** ** The range of converted samples *)

Lemma le_value_range (src : list byte) :
  0 <= le_value src < 256 ^ Z.of_nat (length src).
Proof.
  induction src as [|b src IH]; [simpl; lia|].
  cbn [le_value length]. rewrite Nat2Z.inj_succ, Z.pow_succ_r by lia.
  pose proof (byte_val_range b). lia.
Qed.

(** X11: For samples of 1, 2 or 3 bytes no converted sample is ever negative:
    whatever the bytes of [buffer_], the word stored in a cell lies
    between 0 and [256 ^ bytes_per_sample - 1], so the sign of a negative
    input sample is lost; every converted sample fits an [int32_t]. *)
Theorem narrow_samples_are_never_negative (host : byte_order) (buf : list byte)
    (bytes_per_sample i : nat) (v : Z) :
  swizzle_sample host buf bytes_per_sample i = Some v ->
  - 2 ^ 31 <= v < 2 ^ 31
  /\ ((bytes_per_sample <= 3)%nat -> 0 <= v < 256 ^ Z.of_nat bytes_per_sample).
Proof.
  rewrite swizzle_sample_value.
  destruct (decide (bytes_per_sample <= 4)%nat) as [Hb|Hb]; [|intros H; discriminate H].
  destruct (read_bytes buf (2 * i) bytes_per_sample) as [src|] eqn:E;
    [|intros H; discriminate H].
  apply read_bytes_Some in E as (_ & _ & Hlen).
  simpl. intros [= <-].
  pose proof (le_value_range src) as Hr. rewrite Hlen in Hr.
  split.
  - unfold to_int32.
    pose proof (Z.mod_pos_bound (le_value src + 2 ^ 31) (2 ^ 32) ltac:(lia)). lia.
  - intros H3.
    assert (256 ^ Z.of_nat bytes_per_sample <= 256 ^ 3)
      by (apply Z.pow_le_mono_r; lia).
    rewrite to_int32_small; [exact Hr|].
    change (256 ^ 3) with 16777216 in *. change (2 ^ 31) with 2147483648. lia.
Qed.

Lemma narrow_samples_are_never_negative_witness :
  - 2 ^ 31 <= 65436 < 2 ^ 31
  /\ ((2 <= 3)%nat -> 0 <= 65436 < 256 ^ Z.of_nat 2).
Proof.
  apply (narrow_samples_are_never_negative LittleEndian (encode16le [100; -100]) 2 1 65436).
  reflexivity.
Defined.
